(** * mqtt-cli: configuration lifecycle and connection orchestration

    A shallow embedding of [mqtt-cli.py].  The script keeps its settings in
    one global dictionary, [DEFAULT_CONFIG_SCHEMA], mirrored in the file
    [.mqtt-cli-config.json]; its five commands either rewrite that file or
    drive a paho MQTT client.

    The embedding follows the script statement by statement:
    - Python values are the type [pyval]; a [dict] is an association list in
      insertion order, read with [lookup] and written with [store];
    - everything outside the script (the [json] module, the paho client, the
      interrupt signal) is an interface, the class [Env];
    - the script's effects (the file, the global dictionary, the console, the
      calls made on the client) are the fields of [world], threaded by the
      monad [M], whose outcomes are a normal return, a raised exception, or
      a program still running when the fuel of the model is spent. *)

From Stdlib Require Import ZArith List String Ascii Bool Lia.
From Stdlib Require Decimal DecimalFacts DecimalPos DecimalZ.
Import ListNotations.

Local Open Scope string_scope.
Local Open Scope list_scope.

(* ================================================================= *)
(** ** Python values *)

(** The values a configuration can hold: what [json.load] returns and what
    the commands store.  [float] is left out; a Python [str] is a [string]. *)
Unset Elimination Schemes.
Inductive pyval : Type :=
| PNone
| PBool (b : bool)
| PInt (z : Z)
| PStr (s : string)
| PList (items : list pyval)
| PDict (entries : list (string * pyval)).
Set Elimination Schemes.

(** Python's truth value testing, as used by [if] and [and]. *)
Definition truthy (v : pyval) : bool :=
  match v with
  | PNone => false
  | PBool b => b
  | PInt z => negb (z =? 0)%Z
  | PStr s => negb (s =? EmptyString)
  | PList items => match items with [] => false | _ :: _ => true end
  | PDict entries => match entries with [] => false | _ :: _ => true end
  end.

(** [d[k]] on the entries of a dict: the value of the entry with key [k]. *)
Fixpoint lookup (d : list (string * pyval)) (k : string) : option pyval :=
  match d with
  | [] => None
  | (k', v) :: rest => if k' =? k then Some v else lookup rest k
  end.

(** [d[k] = v] on the entries of a dict: an existing key keeps its place and
    takes the new value, a new key goes to the end. *)
Fixpoint store (d : list (string * pyval)) (k : string) (v : pyval)
  : list (string * pyval) :=
  match d with
  | [] => [(k, v)]
  | (k', v') :: rest =>
      if k' =? k then (k', v) :: rest else (k', v') :: store rest k v
  end.

Definition has_key (d : list (string * pyval)) (k : string) : bool :=
  match lookup d k with Some _ => true | None => false end.

Fixpoint distinct (ks : list string) : bool :=
  match ks with
  | [] => true
  | k :: rest => negb (existsb (String.eqb k) rest) && distinct rest
  end.

(** A value is a genuine Python object when no dict in it has a key twice. *)
Fixpoint wf (v : pyval) : bool :=
  match v with
  | PList items => forallb wf items
  | PDict entries =>
      distinct (map fst entries) && forallb (fun kv => wf (snd kv)) entries
  | _ => true
  end.

(** Induction over values, with the hypothesis on every element of a list
    and on every value of a dict. *)
Definition pyval_ind (P : pyval -> Prop)
  (HNone : P PNone)
  (HBool : forall b, P (PBool b))
  (HInt : forall z, P (PInt z))
  (HStr : forall s, P (PStr s))
  (HList : forall items, Forall P items -> P (PList items))
  (HDict : forall entries, Forall (fun kv => P (snd kv)) entries -> P (PDict entries))
  : forall v, P v :=
  fix go (v : pyval) : P v :=
    match v with
    | PNone => HNone
    | PBool b => HBool b
    | PInt z => HInt z
    | PStr s => HStr s
    | PList items =>
        HList items
          ((fix all (l : list pyval) : Forall P l :=
              match l with
              | [] => Forall_nil P
              | x :: r => Forall_cons x (go x) (all r)
              end) items)
    | PDict entries =>
        HDict entries
          ((fix all (l : list (string * pyval)) : Forall (fun kv => P (snd kv)) l :=
              match l with
              | [] => Forall_nil _
              | kv :: r => Forall_cons kv (go (snd kv)) (all r)
              end) entries)
    end.

(* ================================================================= *)
(** ** A reference JSON codec

    The script reads and writes its file through Python's [json] module,
    which is not part of the script: the program below takes the codec
    from its environment.  This section defines one concrete codec, in the
    text format [json.dump] produces by default (items separated by a comma
    and a space, keys by a colon and a space, everything outside printable
    ASCII escaped), to show that the contract assumed of the codec can be
    met and to run the program on concrete files.  Numbers with a fraction
    or an exponent, and escaped code points above 255, have no [pyval] and
    are refused. *)

Definition chars (s : string) : list ascii := list_ascii_of_string s.

Definition quote : ascii := "034"%char.
Definition backslash : ascii := "\"%char.

Definition is_ws (c : ascii) : bool :=
  ((c =? " ") || (c =? "009") || (c =? "010") || (c =? "013"))%char.

Fixpoint skip_ws (s : list ascii) : list ascii :=
  match s with
  | c :: r => if is_ws c then skip_ws r else s
  | [] => []
  end.

(** [strip p s] is what follows [p] in [s], when [s] starts with [p]. *)
Fixpoint strip (p s : list ascii) : option (list ascii) :=
  match p, s with
  | [], _ => Some s
  | a :: p', b :: s' => if (a =? b)%char then strip p' s' else None
  | _ :: _, [] => None
  end.

(** *** Integers *)

Fixpoint uint_chars (u : Decimal.uint) : list ascii :=
  match u with
  | Decimal.Nil => []
  | Decimal.D0 u => "0"%char :: uint_chars u
  | Decimal.D1 u => "1"%char :: uint_chars u
  | Decimal.D2 u => "2"%char :: uint_chars u
  | Decimal.D3 u => "3"%char :: uint_chars u
  | Decimal.D4 u => "4"%char :: uint_chars u
  | Decimal.D5 u => "5"%char :: uint_chars u
  | Decimal.D6 u => "6"%char :: uint_chars u
  | Decimal.D7 u => "7"%char :: uint_chars u
  | Decimal.D8 u => "8"%char :: uint_chars u
  | Decimal.D9 u => "9"%char :: uint_chars u
  end.

Definition emit_int (z : Z) : list ascii :=
  match Z.to_int z with
  | Decimal.Pos u => uint_chars u
  | Decimal.Neg u => "-"%char :: uint_chars u
  end.

Definition digit_of (c : ascii) : option (Decimal.uint -> Decimal.uint) :=
  (if c =? "0" then Some Decimal.D0 else if c =? "1" then Some Decimal.D1
   else if c =? "2" then Some Decimal.D2 else if c =? "3" then Some Decimal.D3
   else if c =? "4" then Some Decimal.D4 else if c =? "5" then Some Decimal.D5
   else if c =? "6" then Some Decimal.D6 else if c =? "7" then Some Decimal.D7
   else if c =? "8" then Some Decimal.D8 else if c =? "9" then Some Decimal.D9
   else None)%char.

(** The longest run of digits at the head of [s], and what follows it. *)
Fixpoint read_uint (s : list ascii) : Decimal.uint * list ascii :=
  match s with
  | c :: r =>
      match digit_of c with
      | Some d => let (u, r') := read_uint r in (d u, r')
      | None => (Decimal.Nil, s)
      end
  | [] => (Decimal.Nil, [])
  end.

(** What may not follow an integer literal: a further digit, or the start
    of a fraction or an exponent. *)
Definition continues_number (s : list ascii) : bool :=
  match s with
  | c :: _ =>
      match digit_of c with
      | Some _ => true
      | None => ((c =? ".") || (c =? "e") || (c =? "E"))%char
      end
  | [] => false
  end.

Definition leading_zero (u : Decimal.uint) : bool :=
  match u with
  | Decimal.D0 Decimal.Nil => false
  | Decimal.D0 _ => true
  | _ => false
  end.

Definition parse_number (s : list ascii) : option (pyval * list ascii) :=
  let (negative, body) :=
    match s with
    | c :: r => if (c =? "-")%char then (true, r) else (false, s)
    | [] => (false, s)
    end in
  let (u, r) := read_uint body in
  match u with
  | Decimal.Nil => None
  | _ =>
      if leading_zero u || continues_number r then None
      else Some (PInt (Z.of_int (if negative then Decimal.Neg u else Decimal.Pos u)), r)
  end.

(** *** Strings *)

Definition hex_char (n : N) : ascii :=
  nth (N.to_nat n) (chars "0123456789abcdef") "0"%char.

Definition hex_val (c : ascii) : option N :=
  let n := N_of_ascii c in
  (if (48 <=? n) && (n <=? 57) then Some (n - 48)
   else if (97 <=? n) && (n <=? 102) then Some (n - 87)
   else if (65 <=? n) && (n <=? 70) then Some (n - 55)
   else None)%N.

Definition hex4 (a b c d : ascii) : option N :=
  match hex_val a, hex_val b, hex_val c, hex_val d with
  | Some x, Some y, Some z, Some w => Some (((x * 16 + y) * 16 + z) * 16 + w)%N
  | _, _, _, _ => None
  end.

Definition emit_char (c : ascii) : list ascii :=
  let n := N_of_ascii c in
  (if n =? 34 then [backslash; quote]
   else if n =? 92 then [backslash; backslash]
   else if n =? 10 then [backslash; "n"%char]
   else if n =? 13 then [backslash; "r"%char]
   else if n =? 9 then [backslash; "t"%char]
   else if n =? 8 then [backslash; "b"%char]
   else if n =? 12 then [backslash; "f"%char]
   else if (n <? 32) || (126 <? n) then
     [backslash; "u"%char; "0"%char; "0"%char; hex_char (n / 16); hex_char (n mod 16)]
   else [c])%N.

Definition emit_str (s : string) : list ascii :=
  quote :: flat_map emit_char (chars s) ++ [quote].

Definition unescape (e : ascii) : option ascii :=
  (if e =? quote then Some quote
   else if e =? backslash then Some backslash
   else if e =? "/" then Some "/"
   else if e =? "n" then Some "010"
   else if e =? "r" then Some "013"
   else if e =? "t" then Some "009"
   else if e =? "b" then Some "008"
   else if e =? "f" then Some "012"
   else None)%char.

Definition push (c : ascii) (r : option (list ascii * list ascii))
  : option (list ascii * list ascii) :=
  match r with
  | Some (k, t) => Some (c :: k, t)
  | None => None
  end.

(** The characters of a string literal whose opening quote is already
    read, up to its closing quote, and what follows it. *)
Fixpoint parse_str (s : list ascii) : option (list ascii * list ascii) :=
  match s with
  | [] => None
  | c :: r =>
      if (c =? quote)%char then Some ([], r)
      else if (c =? backslash)%char then
        match r with
        | [] => None
        | e :: r1 =>
            if (e =? "u")%char then
              match r1 with
              | h1 :: h2 :: h3 :: h4 :: r2 =>
                  match hex4 h1 h2 h3 h4 with
                  | Some n =>
                      if (n <? 256)%N then push (ascii_of_N n) (parse_str r2)
                      else None
                  | None => None
                  end
              | _ => None
              end
            else
              match unescape e with
              | Some c' => push c' (parse_str r1)
              | None => None
              end
        end
      else if (N_of_ascii c <? 32)%N then None
      else push c (parse_str r)
  end.

(** *** Values *)

Fixpoint emit (v : pyval) : list ascii :=
  match v with
  | PNone => chars "null"
  | PBool true => chars "true"
  | PBool false => chars "false"
  | PInt z => emit_int z
  | PStr s => emit_str s
  | PList [] => chars "[]"
  | PList (x :: rest) =>
      "["%char :: emit x ++
        (fix more (l : list pyval) : list ascii :=
           match l with
           | [] => ["]"%char]
           | y :: l' => ","%char :: " "%char :: emit y ++ more l'
           end) rest
  | PDict [] => chars "{}"
  | PDict (kx :: rest) =>
      "{"%char :: emit_str (fst kx) ++ ":"%char :: " "%char :: emit (snd kx) ++
        (fix more (l : list (string * pyval)) : list ascii :=
           match l with
           | [] => ["}"%char]
           | ky :: l' =>
               ","%char :: " "%char :: emit_str (fst ky) ++
               ":"%char :: " "%char :: emit (snd ky) ++ more l'
           end) rest
  end.

(** The text after the first element of a list, closing bracket included. *)
Fixpoint emit_elems (l : list pyval) : list ascii :=
  match l with
  | [] => ["]"%char]
  | y :: l' => ","%char :: " "%char :: emit y ++ emit_elems l'
  end.

(** The text after the first member of a dict, closing brace included. *)
Fixpoint emit_members (l : list (string * pyval)) : list ascii :=
  match l with
  | [] => ["}"%char]
  | ky :: l' =>
      ","%char :: " "%char :: emit_str (fst ky) ++
      ":"%char :: " "%char :: emit (snd ky) ++ emit_members l'
  end.

Definition parser (A : Type) : Type := list ascii -> option (A * list ascii).

(** After an element: a comma and a further element, or the closing
    bracket. *)
Fixpoint parse_elems (p : parser pyval) (fuel : nat) : parser (list pyval) :=
  fun s =>
  match fuel with
  | O => None
  | S n =>
      match skip_ws s with
      | [] => None
      | c :: r =>
          if (c =? "]")%char then Some ([], r)
          else if (c =? ",")%char then
            match p r with
            | Some (x, r1) =>
                match parse_elems p n r1 with
                | Some (xs, r2) => Some (x :: xs, r2)
                | None => None
                end
            | None => None
            end
          else None
      end
  end.

(** A member of a dict: a string, a colon, a value. *)
Definition parse_member (p : parser pyval) : parser (string * pyval) :=
  fun s =>
  match skip_ws s with
  | [] => None
  | c :: r =>
      if (c =? quote)%char then
        match parse_str r with
        | Some (k, r1) =>
            match skip_ws r1 with
            | [] => None
            | c1 :: r2 =>
                if (c1 =? ":")%char then
                  match p r2 with
                  | Some (x, r3) => Some ((string_of_list_ascii k, x), r3)
                  | None => None
                  end
                else None
            end
        | None => None
        end
      else None
  end.

Fixpoint parse_members (p : parser pyval) (fuel : nat)
  : parser (list (string * pyval)) :=
  fun s =>
  match fuel with
  | O => None
  | S n =>
      match skip_ws s with
      | [] => None
      | c :: r =>
          if (c =? "}")%char then Some ([], r)
          else if (c =? ",")%char then
            match parse_member p r with
            | Some (kx, r1) =>
                match parse_members p n r1 with
                | Some (kxs, r2) => Some (kx :: kxs, r2)
                | None => None
                end
            | None => None
            end
          else None
      end
  end.

(** The dict built from the members of an object in the order read: a key
    that comes again replaces the value read before. *)
Definition dict_of (members : list (string * pyval)) : list (string * pyval) :=
  fold_left (fun d kx => store d (fst kx) (snd kx)) members [].

Definition literal (word : string) (v : pyval) (otherwise : parser pyval)
  : parser pyval :=
  fun s =>
  match strip (chars word) s with
  | Some r => Some (v, r)
  | None => otherwise s
  end.

Definition parse_compound (p : parser pyval) (fuel : nat) : parser pyval :=
  fun s =>
  match s with
  | [] => None
  | c :: r =>
      if (c =? quote)%char then
        match parse_str r with
        | Some (k, r1) => Some (PStr (string_of_list_ascii k), r1)
        | None => None
        end
      else if (c =? "[")%char then
        match strip ["]"%char] (skip_ws r) with
        | Some r' => Some (PList [], r')
        | None =>
            match p r with
            | Some (x, r1) =>
                match parse_elems p fuel r1 with
                | Some (xs, r2) => Some (PList (x :: xs), r2)
                | None => None
                end
            | None => None
            end
        end
      else if (c =? "{")%char then
        match strip ["}"%char] (skip_ws r) with
        | Some r' => Some (PDict [], r')
        | None =>
            match parse_member p r with
            | Some (kx, r1) =>
                match parse_members p fuel r1 with
                | Some (kxs, r2) => Some (PDict (dict_of (kx :: kxs)), r2)
                | None => None
                end
            | None => None
            end
        end
      else parse_number s
  end.

(** One JSON value at the head of [s], after optional white space. *)
Fixpoint parse (fuel : nat) : parser pyval :=
  fun s =>
  match fuel with
  | O => None
  | S n =>
      literal "null" PNone
        (literal "true" (PBool true)
           (literal "false" (PBool false)
              (parse_compound (parse n) n)))
        (skip_ws s)
  end.

(** [json.dumps] of the reference codec. *)
Definition ref_dumps (v : pyval) : string := string_of_list_ascii (emit v).

(** [json.loads] of the reference codec: one value, then only white space;
    [None] stands for [JSONDecodeError]. *)
Definition ref_loads (s : string) : option pyval :=
  match parse (S (List.length (chars s))) (chars s) with
  | Some (v, r) =>
      match skip_ws r with
      | [] => Some v
      | _ :: _ => None
      end
  | None => None
  end.


(** *** Vocabulary of the round trip *)

(** The characters a written value can start with. *)
Definition value_head (c : ascii) : bool :=
  existsb (Ascii.eqb c) (quote :: chars "ntf-0123456789[{").

Definition number_head (c : ascii) : bool :=
  existsb (Ascii.eqb c) (chars "-0123456789").

(** What [parse_elems] and [parse_members] ask of the parser of values. *)
Definition reads (p : parser pyval) (x : pyval) : Prop :=
  forall t, continues_number t = false -> p (" "%char :: emit x ++ t) = Some (x, t).

(** A written value, followed by anything that does not continue a number,
    is read back whole, with fuel above its length. *)
Definition reads_back (v : pyval) : Prop :=
  wf v = true ->
  forall n r, List.length (emit v) < n -> continues_number r = false ->
  parse n (emit v ++ r) = Some (v, r).

(* ================================================================= *)
(** ** The world of the script *)

(** The exceptions the script can meet.  The script defines none and
    catches only [KeyboardInterrupt]; all others end the run. *)
Inductive exn : Type :=
| KeyError (key : string)       (* [d[k]] on a dict without the key [k] *)
| TypeError                     (* [v[k]] where [v] is not a dict *)
| ValueError (what : string)    (* [int] of a text that is no number; a refused argument *)
| JSONDecodeError               (* [json.load] of a text that is not JSON *)
| FileNotFoundError             (* [open] for reading of a missing file *)
| OSError (what : string)       (* a failure of the network *)
| KeyboardInterrupt.            (* the interrupt signal *)

(** What the script asks of the paho client, in the order of the
    arguments in the script. *)
Inductive call : Type :=
| Client (client_id protocol transport userdata clean_session : pyval)
| SetCallback (name : string)
| UsernamePwSet (username password : pyval)
| Connect (host port : pyval)
| Publish (topic payload : string) (qos : Z) (retain : bool)
| Subscribe (topic : string)
| LoopStart
| LoopStop.

Inductive level : Type := INF | ERR | WAR.

(** The lines the script prints, one constructor for each format string,
    with the values it interpolates. *)
Inductive message : Type :=
| CreatingConfig    (* Couldn't find config file, creating config file ... *)
| LoadingConfig     (* Config file ... found, loading config *)
| SettingServer (server : string) (port : Z)
| SettingCredentials (username password : string)
| Connecting (server port : pyval)
| Publishing (payload topic : string)
| Subscribing (topic : string)
| Viewing (topic : string)
| PressCtrlC
| Exiting
| InvalidCommand.

Record world : Type := mkWorld {
  file : option string;             (* the text of [CONFIG_FILE]; [None]: no such file *)
  config : pyval;                   (* the global [DEFAULT_CONFIG_SCHEMA] *)
  console : list (level * message); (* the lines printed so far *)
  calls : list call;                (* the calls made on the client so far *)
  slept : nat                       (* the calls of [time.sleep] that have returned *)
}.

(** What the script relies on and does not define. *)
Class Env : Type := {
  json_dumps : pyval -> string;          (* the text [json.dump] writes *)
  json_loads : string -> option pyval;   (* [json.load]; [None]: [JSONDecodeError] *)
  py_int : string -> option Z;           (* [int(text)]; [None]: [ValueError] *)
  client_raises : call -> option exn;    (* the exception a call on the client raises, if any *)
  sigint : option nat                    (* the call of [time.sleep] the interrupt falls in, if any *)
}.

(** The contract of [json]: what is dumped loads back as the same value. *)
Definition json_round_trip `{Env} : Prop :=
  forall v, wf v = true -> json_loads (json_dumps v) = Some v.

Inductive outcome (A : Type) : Type :=
| Return (a : A)
| Raise (e : exn)
| Running.
Arguments Return {A} a.
Arguments Raise {A} e.
Arguments Running {A}.

Definition M (A : Type) : Type := world -> outcome A * world.

Definition ret {A} (a : A) : M A := fun w => (Return a, w).

Definition raise {A} (e : exn) : M A := fun w => (Raise e, w).

Definition bind {A B} (m : M A) (k : A -> M B) : M B :=
  fun w =>
    match m w with
    | (Return a, w') => k a w'
    | (Raise e, w') => (Raise e, w')
    | (Running, w') => (Running, w')
    end.

Notation "x <- m ;; k" := (bind m (fun x => k))
  (at level 61, m at next level, right associativity).
Notation "m ;; k" := (bind m (fun _ => k))
  (at level 61, right associativity).

(** [try: body except KeyboardInterrupt: handler] *)
Definition try_except_KeyboardInterrupt {A} (body handler : M A) : M A :=
  fun w =>
    match body w with
    | (Raise KeyboardInterrupt, w') => handler w'
    | r => r
    end.

(** [while True: body], for at most [fuel] rounds. *)
Fixpoint while_True (fuel : nat) (body : M unit) : M unit :=
  match fuel with
  | O => fun w => (Running, w)
  | S n => body ;; while_True n body
  end.

(* ================================================================= *)
(** ** The script *)

Definition CONFIG_FILE : string := ".mqtt-cli-config.json".

(** [mqtt.MQTTv311], the constant of the paho library for MQTT 3.1.1. *)
Definition MQTTv311 : Z := 4.

(** The dictionary literal of the script (lines 28-38). *)
Definition DEFAULT_CONFIG_SCHEMA : pyval :=
  PDict [ ("server", PStr "localhost");
          ("port", PInt 1883);
          ("client_id", PStr "mqtt-cli");
          ("clean_session", PBool true);
          ("userdata", PNone);
          ("username", PNone);
          ("password", PNone);
          ("protocol", PInt MQTTv311);
          ("transport", PStr "tcp") ].

(** The arguments as docopt hands them over: the command and its texts. *)
Inductive command : Type :=
| SetMqttServerCmd (server port : string)
| SetCredentialsCmd (username password : string)
| PublishCmd (topic payload : string)
| SubscribeCmd (topic : string)
| ViewMessagesCmd (topic : string)
| NoCmd.

Section Script.
Context `{Env}.

(** *** Statements *)

Definition pr_inf (m : message) : M unit :=
  fun w => (Return tt, mkWorld (file w) (config w) (console w ++ [(INF, m)]) (calls w) (slept w)).

Definition pr_err (m : message) : M unit :=
  fun w => (Return tt, mkWorld (file w) (config w) (console w ++ [(ERR, m)]) (calls w) (slept w)).

Definition pr_war (m : message) : M unit :=
  fun w => (Return tt, mkWorld (file w) (config w) (console w ++ [(WAR, m)]) (calls w) (slept w)).

(** [os.path.exists(CONFIG_FILE)] *)
Definition path_exists : M bool :=
  fun w => (Return (match file w with Some _ => true | None => false end), w).

(** [open(CONFIG_FILE, 'w')]: the file is there and empty. *)
Definition open_w : M unit :=
  fun w => (Return tt, mkWorld (Some EmptyString) (config w) (console w) (calls w) (slept w)).

(** [open(CONFIG_FILE, 'r')] and the text read from it. *)
Definition open_r : M string :=
  fun w =>
    match file w with
    | Some text => (Return text, w)
    | None => (Raise FileNotFoundError, w)
    end.

Definition write (text : string) : M unit :=
  fun w =>
    (Return tt,
     mkWorld (Some (match file w with Some old => (old ++ text)%string | None => text end))
             (config w) (console w) (calls w) (slept w)).

(** [json.dump(DEFAULT_CONFIG_SCHEMA, f)] *)
Definition json_dump : M unit :=
  fun w => write (json_dumps (config w)) w.

(** [json.load(f)] *)
Definition json_load : M pyval :=
  text <- open_r ;;
  match json_loads text with
  | Some v => ret v
  | None => raise JSONDecodeError
  end.

(** [DEFAULT_CONFIG_SCHEMA = v] *)
Definition rebind (v : pyval) : M unit :=
  fun w => (Return tt, mkWorld (file w) v (console w) (calls w) (slept w)).

(** [DEFAULT_CONFIG_SCHEMA[k]] *)
Definition getitem (k : string) : M pyval :=
  fun w =>
    match config w with
    | PDict d =>
        match lookup d k with
        | Some v => (Return v, w)
        | None => (Raise (KeyError k), w)
        end
    | _ => (Raise TypeError, w)
    end.

(** [DEFAULT_CONFIG_SCHEMA[k] = v] *)
Definition setitem (k : string) (v : pyval) : M unit :=
  fun w =>
    match config w with
    | PDict d =>
        (Return tt, mkWorld (file w) (PDict (store d k v)) (console w) (calls w) (slept w))
    | _ => (Raise TypeError, w)
    end.

(** A call on the client: it is made, and returns or raises as the
    environment decides. *)
Definition client (c : call) : M unit :=
  fun w =>
    let w' := mkWorld (file w) (config w) (console w) (calls w ++ [c]) (slept w) in
    match client_raises c with
    | Some e => (Raise e, w')
    | None => (Return tt, w')
    end.

(** [self.client.on_... = self.on_...] *)
Definition set_callback (name : string) : M unit :=
  fun w =>
    (Return tt,
     mkWorld (file w) (config w) (console w) (calls w ++ [SetCallback name]) (slept w)).

(** [time.sleep(1)]: returns after a second, unless the interrupt falls
    in this call. *)
Definition sleep : M unit :=
  fun w =>
    if match sigint with Some k => Nat.eqb k (slept w) | None => false end
    then (Raise KeyboardInterrupt, w)
    else (Return tt, mkWorld (file w) (config w) (console w) (calls w) (S (slept w))).

(** *** Module level (lines 40-47); the specification's [load_or_init] *)

Definition load_or_init : M unit :=
  found <- path_exists ;;
  if negb found then
    open_w ;;
    pr_err CreatingConfig ;;
    json_dump
  else
    pr_inf LoadingConfig ;;
    v <- json_load ;;
    rebind v.

(** The two lines that end both setters (lines 63-64 and 70-71); the
    specification's [save]. *)
Definition save : M unit :=
  open_w ;;
  json_dump.

(** *** class MqttClient *)

(** [MqttClient.__init__] (lines 50-57) *)
Definition MqttClient_init : M unit :=
  client_id <- getitem "client_id" ;;
  protocol <- getitem "protocol" ;;
  transport <- getitem "transport" ;;
  userdata <- getitem "userdata" ;;
  clean_session <- getitem "clean_session" ;;
  client (Client client_id protocol transport userdata clean_session) ;;
  set_callback "on_connect" ;;
  set_callback "on_message" ;;
  set_callback "on_subscribe" ;;
  set_callback "on_log" ;;
  username <- getitem "username" ;;
  both <- (if truthy username
           then password <- getitem "password" ;; ret (truthy password)
           else ret false) ;;
  if both then
    username <- getitem "username" ;;
    password <- getitem "password" ;;
    client (UsernamePwSet username password)
  else ret tt.

Definition set_mqtt_server (server : string) (port : Z) : M unit :=
  pr_inf (SettingServer server port) ;;
  setitem "server" (PStr server) ;;
  setitem "port" (PInt port) ;;
  save.

Definition set_credentials (username password : string) : M unit :=
  pr_inf (SettingCredentials username password) ;;
  setitem "username" (PStr username) ;;
  setitem "password" (PStr password) ;;
  save.

(** The two lines that open [publish], [subscribe] and [view_messages]. *)
Definition connect : M unit :=
  server <- getitem "server" ;;
  port <- getitem "port" ;;
  pr_inf (Connecting server port) ;;
  server <- getitem "server" ;;
  port <- getitem "port" ;;
  client (Connect server port).

Definition publish (topic payload : string) (qos : Z) (retain : bool) : M unit :=
  connect ;;
  pr_inf (Publishing payload topic) ;;
  client (Publish topic payload qos retain).

Definition subscribe (topic : string) : M unit :=
  connect ;;
  pr_inf (Subscribing topic) ;;
  client (Subscribe topic).

(** [view_messages], its [while True] run for at most [fuel] rounds. *)
Definition view_messages (fuel : nat) (topic : string) : M unit :=
  connect ;;
  try_except_KeyboardInterrupt
    (pr_inf (Viewing topic) ;;
     pr_inf PressCtrlC ;;
     client (Subscribe topic) ;;
     client LoopStart ;;
     while_True fuel sleep)
    (client LoopStop ;;
     pr_inf Exiting).

(** *** class MqttCli *)

Definition run (fuel : nat) (args : command) : M unit :=
  match args with
  | SetMqttServerCmd server port =>
      match py_int port with
      | Some n => set_mqtt_server server n
      | None => raise (ValueError port)
      end
  | SetCredentialsCmd username password => set_credentials username password
  | PublishCmd topic payload => publish topic payload 0 false
  | SubscribeCmd topic => subscribe topic
  | ViewMessagesCmd topic => view_messages fuel topic
  | NoCmd => pr_err InvalidCommand
  end.

(** One run of the script: the module level, then [MqttCli().run(args)]. *)
Definition main (fuel : nat) (args : command) : M unit :=
  load_or_init ;;
  MqttClient_init ;;
  run fuel args.

(** The world a new run of the script starts in: the file as the run
    before left it, the dictionary literal, nothing printed or called. *)
Definition boot (disk : option string) : world :=
  mkWorld disk DEFAULT_CONFIG_SCHEMA [] [] 0.

End Script.

(* ================================================================= *)
(** ** Vocabulary of the properties *)

(** A setting counts as given when its key is there with a true value:
    neither a missing key, nor [None], nor the empty string. *)
Definition given (o : option pyval) : bool :=
  match o with
  | Some v => truthy v
  | None => false
  end.

(** The calls that establish a connection, for a handle built with the
    given arguments: the handle, its four callbacks, the credentials when
    both are given, the connect. *)
Definition handshake
  (client_id protocol transport userdata clean_session username password server port : pyval)
  : list call :=
  [ Client client_id protocol transport userdata clean_session;
    SetCallback "on_connect"; SetCallback "on_message";
    SetCallback "on_subscribe"; SetCallback "on_log" ] ++
  (if truthy username && truthy password
   then [UsernamePwSet username password] else []) ++
  [ Connect server port ].

(** [MqttCli()] and then the operation [op] make the calls [hs] first. *)
Definition establishes `{Env} (w : world) (op : M unit) (hs : list call) : Prop :=
  exists rest, calls (snd ((MqttClient_init ;; op) w)) = calls w ++ hs ++ rest.

(** The interrupt falls in one of the next [fuel] calls of [time.sleep]. *)
Definition interrupted `{Env} (w : world) (fuel : nat) : bool :=
  match sigint with
  | Some k => ((slept w <=? k) && (k <? slept w + fuel))%nat
  | None => false
  end.

(** *** What an operation leaves alone *)

(** Every run of [m] takes a world to one related to it by [R]. *)
Definition within (R : world -> world -> Prop) {A : Type} (m : M A) : Prop :=
  forall w, R w (snd (m w)).

(** The file and the dictionary are as they were. *)
Definition same_disk (w w' : world) : Prop :=
  file w' = file w /\ config w' = config w.

(** The calls made on the client since [w] all satisfy [P]. *)
Definition asks_only (P : call -> Prop) (w w' : world) : Prop :=
  exists more, calls w' = calls w ++ more /\ Forall P more.

(** The calls that build and equip the handle, none of which reaches the
    broker. *)
Definition handle_call (c : call) : Prop :=
  match c with
  | Client _ _ _ _ _ | SetCallback _ | UsernamePwSet _ _ => True
  | _ => False
  end.

(** The keys [MqttClient.__init__] reads to build the handle, in the order
    it reads them. *)
Definition handle_keys : list string :=
  ["client_id"; "protocol"; "transport"; "userdata"; "clean_session"].

(** The first key of [keys] that the dict lacks. *)
Definition first_missing (d : list (string * pyval)) (keys : list string)
  : option string :=
  find (fun k => negb (has_key d k)) keys.

Definition is_dict (v : pyval) : bool :=
  match v with
  | PDict _ => true
  | _ => false
  end.

(** *** Sample environments and worlds *)

Definition ref_int (text : string) : option Z :=
  match parse_number (chars text) with
  | Some (PInt z, []) => Some z
  | _ => None
  end.

(** The reference codec, a broker that accepts everything, an interrupt in
    the third second of waiting. *)
Definition calm : Env :=
  {| json_dumps := ref_dumps;
     json_loads := ref_loads;
     py_int := ref_int;
     client_raises := fun _ => None;
     sigint := Some 2 |}.

(** The same, with a broker that cannot be reached. *)
Definition unreachable : Env :=
  {| json_dumps := ref_dumps;
     json_loads := ref_loads;
     py_int := ref_int;
     client_raises :=
       fun c => match c with
                | Connect _ _ => Some (OSError "Connection refused")
                | _ => None
                end;
     sigint := None |}.

(** The reference codec, a broker at hand, and an interrupt that falls in
    the subscribe call. *)
Definition hasty : Env :=
  {| json_dumps := ref_dumps;
     json_loads := ref_loads;
     py_int := ref_int;
     client_raises :=
       fun c => match c with
                | Subscribe _ => Some KeyboardInterrupt
                | _ => None
                end;
     sigint := None |}.

(** A file that holds two of the settings only. *)
Definition partial : list (string * pyval) :=
  [ ("client_id", PStr "mqtt-cli"); ("server", PStr "localhost") ].

(** How a broker meets a connection attempt. *)
Inductive broker : Type :=
| Accepts               (* the transport opens, the broker answers with result code 0 *)
| Refuses (rc : Z)      (* the transport opens, the broker answers with another result code *)
| Unreachable.          (* the transport does not open *)

(** The client in front of such a broker.  [connect] opens the transport
    and sends the request: it raises when the transport does not open.
    The answer of the broker is read by the network loop and handed to
    [on_connect] as its result code [rc] (lines 99-100); [publish] and
    [subscribe] run no loop and read no result, so a refusal raises
    nothing in them. *)
Definition facing (b : broker) : Env :=
  {| json_dumps := ref_dumps;
     json_loads := ref_loads;
     py_int := ref_int;
     client_raises :=
       fun c => match c, b with
                | Connect _ _, Unreachable => Some (OSError "Connection refused")
                | _, _ => None
                end;
     sigint := None |}.

(** The operation fails and sends nothing: it ends with an exception and
    has made no publish call. *)
Definition fails_without_sending (w : world) (r : outcome unit * world) : Prop :=
  (exists e, fst r = Raise e) /\
  forall t m q b, In (Publish t m q b) (calls (snd r)) -> In (Publish t m q b) (calls w).

(** A world with the given dictionary and file, nothing printed or called. *)
Definition at_rest (disk : option string) (cfg : pyval) : world :=
  mkWorld disk cfg [] [] 0.

(** The defaults with a user name and no password. *)
Definition only_username : list (string * pyval) :=
  [ ("server", PStr "localhost"); ("port", PInt 1883);
    ("client_id", PStr "mqtt-cli"); ("clean_session", PBool true);
    ("userdata", PNone); ("username", PStr "alice"); ("password", PNone);
    ("protocol", PInt MQTTv311); ("transport", PStr "tcp") ].

(** The defaults with both credentials and a [userdata] of its own, as a
    file edited by hand can hold. *)
Definition tagged : list (string * pyval) :=
  [ ("server", PStr "localhost"); ("port", PInt 1883);
    ("client_id", PStr "mqtt-cli"); ("clean_session", PBool true);
    ("userdata", PStr "tag"); ("username", PStr "alice"); ("password", PStr "secret");
    ("protocol", PInt MQTTv311); ("transport", PStr "tcp") ].

(* ================================================================= *)
(** ** Facts on dictionaries *)

Lemma lookup_store_same d k v : lookup (store d k v) k = Some v.
Proof.
  induction d as [|[k' v'] d IH]; simpl.
  - now rewrite String.eqb_refl.
  - destruct (k' =? k) eqn:E; simpl; rewrite E; auto.
Qed.

Lemma lookup_store_other d k v k' :
  k <> k' -> lookup (store d k v) k' = lookup d k'.
Proof.
  intros Hne. induction d as [|[k0 v0] d IH]; simpl.
  - destruct (k =? k') eqn:E; auto. apply String.eqb_eq in E. contradiction.
  - destruct (k0 =? k) eqn:E; simpl.
    + apply String.eqb_eq in E. subst k0.
      destruct (k =? k') eqn:E'; auto. apply String.eqb_eq in E'. contradiction.
    + now rewrite IH.
Qed.

(** Storing what is already there changes nothing. *)
Lemma store_present d k v : lookup d k = Some v -> store d k v = d.
Proof.
  induction d as [|[k' v'] d IH]; simpl; [discriminate|].
  destruct (k' =? k) eqn:E; intros Hl.
  - now inversion Hl.
  - now rewrite IH.
Qed.

Lemma keys_store_present d k v :
  existsb (String.eqb k) (map fst d) = true -> map fst (store d k v) = map fst d.
Proof.
  induction d as [|[k' v'] d IH]; simpl; [discriminate|].
  rewrite (String.eqb_sym k k'). destruct (k' =? k) eqn:E; simpl; intros Hin.
  - reflexivity.
  - now rewrite IH.
Qed.

Lemma keys_store_absent d k v :
  existsb (String.eqb k) (map fst d) = false -> store d k v = d ++ [(k, v)].
Proof.
  induction d as [|[k' v'] d IH]; simpl; [reflexivity|].
  rewrite (String.eqb_sym k k'). destruct (k' =? k) eqn:E; simpl; intros Hin.
  - discriminate.
  - now rewrite IH.
Qed.

Lemma distinct_snoc ks k :
  distinct (ks ++ [k]) = distinct ks && negb (existsb (String.eqb k) ks).
Proof.
  induction ks as [|k0 ks IH]; simpl; [reflexivity|].
  rewrite IH, existsb_app. simpl. rewrite orb_false_r, (String.eqb_sym k k0).
  destruct (existsb (String.eqb k0) ks), (k0 =? k), (distinct ks),
    (existsb (String.eqb k) ks); reflexivity.
Qed.

(** [store] keeps the keys of a dict distinct. *)
Lemma distinct_store d k v :
  distinct (map fst d) = true -> distinct (map fst (store d k v)) = true.
Proof.
  intros Hd. destruct (existsb (String.eqb k) (map fst d)) eqn:E.
  - now rewrite keys_store_present.
  - rewrite keys_store_absent by assumption.
    rewrite map_app. simpl. rewrite distinct_snoc. now rewrite Hd, E.
Qed.

Lemma forallb_store d k v :
  forallb (fun kv => wf (snd kv)) d = true -> wf v = true ->
  forallb (fun kv => wf (snd kv)) (store d k v) = true.
Proof.
  intros Hd Hv. induction d as [|[k' v'] d IH]; simpl in *.
  - now rewrite Hv.
  - apply andb_true_iff in Hd as [H1 H2].
    destruct (k' =? k); simpl; rewrite ?Hv, ?H1, ?H2, ?IH; auto.
Qed.

Lemma wf_store d k v :
  wf (PDict d) = true -> wf v = true -> wf (PDict (store d k v)) = true.
Proof.
  simpl. intros Hd Hv. apply andb_true_iff in Hd as [H1 H2].
  now rewrite distinct_store, forallb_store.
Qed.

(* ================================================================= *)
(** ** The reference codec reads back what it writes *)

Ltac each_ascii c := destruct c as [[|] [|] [|] [|] [|] [|] [|] [|]].

(** *** Integers *)

Lemma read_uint_chars u r :
  continues_number r = false -> read_uint (uint_chars u ++ r) = (u, r).
Proof.
  intros Hr. induction u; simpl; try (rewrite IHu; reflexivity).
  destruct r as [|c r]; [reflexivity|]. simpl in *.
  destruct (digit_of c); [discriminate | reflexivity].
Qed.

Lemma nzhead_no_zero u : leading_zero (Decimal.nzhead u) = false.
Proof.
  induction u; simpl; auto.
Qed.

Lemma to_uint_normal p : leading_zero (Pos.to_uint p) = false.
Proof.
  assert (E : Pos.to_uint p = Decimal.unorm (Pos.to_uint p)).
  { rewrite <- (DecimalPos.Unsigned.to_of (Pos.to_uint p)), DecimalPos.Unsigned.of_to. reflexivity. }
  rewrite E. unfold Decimal.unorm.
  pose proof (nzhead_no_zero (Pos.to_uint p)) as Hz.
  destruct (Decimal.nzhead (Pos.to_uint p)); auto.
Qed.

Lemma uint_chars_head u :
  u <> Decimal.Nil ->
  exists c t, uint_chars u = c :: t /\ (c =? "-")%char = false /\ digit_of c <> None.
Proof.
  destruct u; intros Hu; [contradiction| ..]; simpl;
    eexists; eexists; (split; [reflexivity|]); split; (reflexivity || discriminate).
Qed.

Lemma parse_number_uint u r (negative : bool) :
  u <> Decimal.Nil -> leading_zero u = false -> continues_number r = false ->
  parse_number ((if negative then ["-"%char] else []) ++ uint_chars u ++ r) =
  Some (PInt (Z.of_int (if negative then Decimal.Neg u else Decimal.Pos u)), r).
Proof.
  intros Hu Hz Hr. unfold parse_number.
  destruct negative; simpl.
  - rewrite (read_uint_chars u r Hr), Hz, Hr. destruct u; [congruence | reflexivity ..].
  - destruct (uint_chars_head u Hu) as (c & t & E & Hc & _).
    assert (E' : uint_chars u ++ r = c :: (t ++ r)) by now rewrite E.
    rewrite E', Hc, <- E', (read_uint_chars u r Hr), Hz, Hr.
    destruct u; [congruence | reflexivity ..].
Qed.

Lemma parse_number_emit_int z r :
  continues_number r = false ->
  parse_number (emit_int z ++ r) = Some (PInt z, r).
Proof.
  intros Hr. unfold emit_int.
  destruct z as [|p|p]; simpl Z.to_int.
  - exact (parse_number_uint (Decimal.D0 Decimal.Nil) r false ltac:(discriminate) eq_refl Hr).
  - etransitivity.
    + exact (parse_number_uint (Pos.to_uint p) r false
               (DecimalPos.Unsigned.to_uint_nonnil p) (to_uint_normal p) Hr).
    + do 3 f_equal. exact (DecimalZ.of_to (Z.pos p)).
  - etransitivity.
    + exact (parse_number_uint (Pos.to_uint p) r true
               (DecimalPos.Unsigned.to_uint_nonnil p) (to_uint_normal p) Hr).
    + do 3 f_equal. exact (DecimalZ.of_to (Z.neg p)).
Qed.

(** *** Strings *)

Lemma parse_str_emit_char c r :
  parse_str (emit_char c ++ r) = push c (parse_str r).
Proof.
  each_ascii c; reflexivity.
Qed.

Lemma parse_str_emit l r :
  parse_str (flat_map emit_char l ++ quote :: r) = Some (l, r).
Proof.
  induction l as [|c l IH]; simpl.
  - reflexivity.
  - rewrite <- app_assoc, parse_str_emit_char, IH. reflexivity.
Qed.

(** *** Values *)

Lemma emit_int_head z :
  exists c t, emit_int z = c :: t /\ number_head c = true.
Proof.
  unfold emit_int. destruct z as [|p|p]; simpl Z.to_int.
  - now exists "0"%char, [].
  - pose proof (DecimalPos.Unsigned.to_uint_nonnil p) as Hn.
    destruct (Pos.to_uint p); [contradiction| ..];
      simpl; eexists _, _; split; reflexivity.
  - simpl. eexists _, _; split; reflexivity.
Qed.

Lemma emit_head v : exists c t, emit v = c :: t /\ value_head c = true.
Proof.
  destruct v as [|[|]|z|s|[|x l]|[|kx l]];
    try (simpl; eexists _, _; split; reflexivity).
  simpl. destruct (emit_int_head z) as (c & t & E & Hc). exists c, t. split; [assumption|].
  revert Hc. each_ascii c; (discriminate || reflexivity).
Qed.

Lemma skip_ws_head c t : value_head c = true -> skip_ws (c :: t) = c :: t.
Proof. each_ascii c; (discriminate || reflexivity). Qed.

Lemma strip_bracket_head c t : value_head c = true -> strip ["]"%char] (c :: t) = None.
Proof. each_ascii c; (discriminate || reflexivity). Qed.

Lemma skip_ws_emit v r : skip_ws (emit v ++ r) = emit v ++ r.
Proof.
  destruct (emit_head v) as (c & t & E & Hc). rewrite E. simpl app.
  now apply skip_ws_head.
Qed.

Lemma strip_bracket_emit v r : strip ["]"%char] (emit v ++ r) = None.
Proof.
  destruct (emit_head v) as (c & t & E & Hc). rewrite E. simpl app.
  now apply strip_bracket_head.
Qed.

Lemma parse_space n s : parse n (" "%char :: s) = parse n s.
Proof. destruct n; reflexivity. Qed.

Lemma parse_at_number n c s :
  number_head c = true -> parse (S n) (c :: s) = parse_number (c :: s).
Proof. each_ascii c; (discriminate || reflexivity). Qed.

Lemma parse_at_quote n s :
  parse (S n) (quote :: s) =
  match parse_str s with
  | Some (k, r) => Some (PStr (string_of_list_ascii k), r)
  | None => None
  end.
Proof. reflexivity. Qed.

Lemma parse_at_bracket n s :
  parse (S n) ("["%char :: s) =
  match strip ["]"%char] (skip_ws s) with
  | Some r => Some (PList [], r)
  | None =>
      match parse n s with
      | Some (x, r1) =>
          match parse_elems (parse n) n r1 with
          | Some (xs, r2) => Some (PList (x :: xs), r2)
          | None => None
          end
      | None => None
      end
  end.
Proof. reflexivity. Qed.

Lemma parse_at_brace n s :
  parse (S n) ("{"%char :: s) =
  match strip ["}"%char] (skip_ws s) with
  | Some r => Some (PDict [], r)
  | None =>
      match parse_member (parse n) s with
      | Some (kx, r1) =>
          match parse_members (parse n) n r1 with
          | Some (kxs, r2) => Some (PDict (dict_of (kx :: kxs)), r2)
          | None => None
          end
      | None => None
      end
  end.
Proof. reflexivity. Qed.

Lemma emit_list x l : emit (PList (x :: l)) = "["%char :: emit x ++ emit_elems l.
Proof. reflexivity. Qed.

Lemma emit_dict kx l :
  emit (PDict (kx :: l)) =
  "{"%char :: emit_str (fst kx) ++ ":"%char :: " "%char :: emit (snd kx) ++ emit_members l.
Proof. reflexivity. Qed.

Lemma continues_after_elems l r : continues_number (emit_elems l ++ r) = false.
Proof. destruct l; reflexivity. Qed.

Lemma continues_after_members l r : continues_number (emit_members l ++ r) = false.
Proof. destruct l; reflexivity. Qed.

Lemma parse_elems_comma p n s :
  parse_elems p (S n) (","%char :: s) =
  match p s with
  | Some (x, r1) =>
      match parse_elems p n r1 with
      | Some (xs, r2) => Some (x :: xs, r2)
      | None => None
      end
  | None => None
  end.
Proof. reflexivity. Qed.

Lemma parse_elems_emit p l :
  Forall (reads p) l ->
  forall n r, List.length (emit_elems l) <= n ->
  parse_elems p n (emit_elems l ++ r) = Some (l, r).
Proof.
  induction 1 as [|y l Hy Hl IH]; intros n r Hn;
    (destruct n as [|n]; [simpl in Hn; lia|]).
  - reflexivity.
  - cbn [emit_elems List.length] in Hn. rewrite length_app in Hn.
    cbn [emit_elems app]. rewrite parse_elems_comma, <- app_assoc.
    rewrite (Hy _ (continues_after_elems l r)), IH by lia.
    reflexivity.
Qed.

Lemma parse_member_space p s : parse_member p (" "%char :: s) = parse_member p s.
Proof. reflexivity. Qed.

Lemma parse_member_emit p k x t :
  reads p x -> continues_number t = false ->
  parse_member p (emit_str k ++ ":"%char :: " "%char :: emit x ++ t) = Some ((k, x), t).
Proof.
  intros Hp Ht. unfold parse_member, emit_str.
  change (skip_ws ((quote :: ?s) ++ ?u)) with (quote :: s ++ u).
  cbv beta iota. change (quote =? quote)%char with true. cbv iota.
  rewrite <- app_assoc.
  change ([quote] ++ ?u) with (quote :: u). rewrite parse_str_emit.
  change (skip_ws (":"%char :: ?s)) with (":"%char :: s).
  cbv beta iota. change (":" =? ":")%char with true. cbv iota.
  rewrite (Hp t Ht). unfold chars. now rewrite string_of_list_ascii_of_string.
Qed.

Lemma app_member_assoc (a b m r : list ascii) c1 c2 :
  (a ++ c1 :: c2 :: b ++ m) ++ r = a ++ c1 :: c2 :: b ++ m ++ r.
Proof. rewrite <- app_assoc. cbn [app]. now rewrite <- app_assoc. Qed.

Lemma parse_members_comma p n s :
  parse_members p (S n) (","%char :: s) =
  match parse_member p s with
  | Some (kx, r1) =>
      match parse_members p n r1 with
      | Some (kxs, r2) => Some (kx :: kxs, r2)
      | None => None
      end
  | None => None
  end.
Proof. reflexivity. Qed.

Lemma parse_members_emit p l :
  Forall (fun kx => reads p (snd kx)) l ->
  forall n r, List.length (emit_members l) <= n ->
  parse_members p n (emit_members l ++ r) = Some (l, r).
Proof.
  induction 1 as [|[k x] l Hx Hl IH]; intros n r Hn;
    (destruct n as [|n]; [simpl in Hn; lia|]).
  - reflexivity.
  - cbn [emit_members List.length fst snd] in Hn.
    rewrite length_app in Hn. cbn [List.length] in Hn. rewrite length_app in Hn.
    cbn [emit_members app fst snd]. rewrite parse_members_comma, parse_member_space, app_member_assoc.
    rewrite (parse_member_emit p k x _ Hx (continues_after_members l r)), IH by lia.
    reflexivity.
Qed.

(** *** Dicts read back *)

Lemma distinct_app_absent l1 k l2 :
  distinct (l1 ++ k :: l2) = true -> existsb (String.eqb k) l1 = false.
Proof.
  induction l1 as [|k0 l1 IH]; simpl; [reflexivity|].
  intros Hd. apply andb_true_iff in Hd as [H1 H2].
  rewrite (IH H2), orb_false_r.
  apply negb_true_iff in H1. rewrite existsb_app in H1. simpl in H1.
  rewrite (String.eqb_sym k k0).
  destruct (k0 =? k); [|reflexivity].
  now rewrite orb_true_r in H1.
Qed.

Lemma fold_store_distinct l acc :
  distinct (map fst (acc ++ l)) = true ->
  fold_left (fun d kx => store d (fst kx) (snd kx)) l acc = acc ++ l.
Proof.
  revert acc. induction l as [|[k x] l IH]; intros acc Hd; simpl.
  - now rewrite app_nil_r.
  - rewrite map_app in Hd. simpl in Hd.
    rewrite (keys_store_absent acc k x (distinct_app_absent _ _ _ Hd)).
    rewrite IH; rewrite <- app_assoc; [reflexivity|].
    now rewrite map_app.
Qed.

Lemma dict_of_distinct l : distinct (map fst l) = true -> dict_of l = l.
Proof. intros Hd. unfold dict_of. now rewrite fold_store_distinct. Qed.

(** *** The round trip *)

Lemma emit_elems_bound y l :
  In y l -> List.length (emit y) < List.length (emit_elems l).
Proof.
  induction l as [|x l IH]; [contradiction|].
  cbn [emit_elems List.length]. rewrite length_app.
  intros [->|Hin]; [lia|]. specialize (IH Hin). lia.
Qed.

Lemma emit_members_bound kx l :
  In kx l -> List.length (emit (snd kx)) < List.length (emit_members l).
Proof.
  induction l as [|ky l IH]; [contradiction|].
  cbn [emit_members List.length]. rewrite length_app. cbn [List.length].
  rewrite length_app.
  intros [->|Hin]; [lia|]. specialize (IH Hin). lia.
Qed.

Lemma strip_brace_str k s : strip ["}"%char] (skip_ws (emit_str k ++ s)) = None.
Proof. reflexivity. Qed.

Lemma reads_of_reads_back n x :
  reads_back x -> wf x = true -> List.length (emit x) < n -> reads (parse n) x.
Proof.
  intros Hx Hwf Hn t Ht. rewrite parse_space. now apply Hx.
Qed.

Lemma parse_emit v : reads_back v.
Proof.
  induction v as [|b|z|s|items IH|entries IH] using pyval_ind;
    intros Hwf n r Hn Hr; (destruct n as [|n]; [lia|]).
  - reflexivity.
  - destruct b; reflexivity.
  - destruct (emit_int_head z) as (c & t & E & Hc).
    cbn [emit]. rewrite E. cbn [app]. rewrite (parse_at_number n c _ Hc).
    change (c :: t ++ r) with ((c :: t) ++ r). rewrite <- E.
    now apply parse_number_emit_int.
  - cbn [emit]. unfold emit_str. cbn [app]. rewrite parse_at_quote, <- app_assoc.
    change ([quote] ++ r) with (quote :: r). rewrite parse_str_emit.
    unfold chars. now rewrite string_of_list_ascii_of_string.
  - destruct items as [|x l]; [reflexivity|].
    rewrite emit_list in *. cbn [List.length] in Hn. rewrite length_app in Hn.
    cbn [app]. rewrite parse_at_bracket, <- app_assoc, skip_ws_emit, strip_bracket_emit.
    cbn [wf forallb] in Hwf. apply andb_true_iff in Hwf as [Hwx Hwl].
    inversion IH as [|? ? Hx Hl]; subst.
    rewrite (Hx Hwx n _ ltac:(lia) (continues_after_elems l r)).
    rewrite (parse_elems_emit (parse n) l); [reflexivity| |lia].
    rewrite Forall_forall in *. rewrite forallb_forall in Hwl.
    intros y Hy. apply reads_of_reads_back; auto.
    pose proof (emit_elems_bound y l Hy). lia.
  - destruct entries as [|[k x] l]; [reflexivity|].
    rewrite emit_dict in *. cbn [fst snd] in *. cbn [List.length] in Hn.
    rewrite length_app in Hn. cbn [List.length] in Hn. rewrite length_app in Hn.
    cbn [app]. rewrite parse_at_brace, app_member_assoc, strip_brace_str.
    cbn [wf] in Hwf. apply andb_true_iff in Hwf as [Hd Hwf].
    cbn [forallb snd] in Hwf. apply andb_true_iff in Hwf as [Hwx Hwl].
    inversion IH as [|? ? Hx Hl]; subst. cbn [snd] in Hx.
    rewrite (parse_member_emit (parse n) k x _
               (reads_of_reads_back n x Hx Hwx ltac:(lia))
               (continues_after_members l r)).
    rewrite (parse_members_emit (parse n) l); [|  |lia].
    + now rewrite dict_of_distinct.
    + rewrite Forall_forall in *. rewrite forallb_forall in Hwl.
      intros kx Hkx. apply reads_of_reads_back; auto.
      pose proof (emit_members_bound kx l Hkx). lia.
Qed.

(** [ref_loads] undoes [ref_dumps] on every genuine value. *)
Lemma ref_loads_dumps v : wf v = true -> ref_loads (ref_dumps v) = Some v.
Proof.
  intros Hwf. unfold ref_loads, ref_dumps, chars.
  rewrite list_ascii_of_string_of_list_ascii.
  rewrite <- (app_nil_r (emit v)) at 2.
  now rewrite (parse_emit v Hwf (S (List.length (emit v))) [] ltac:(lia) eq_refl).
Qed.


(* ================================================================= *)
(** ** Properties of the script *)

(** *** What the statements compute on a dictionary *)

Lemma getitem_dict f d out cl n k :
  getitem k (mkWorld f (PDict d) out cl n) =
  (match lookup d k with Some v => Return v | None => Raise (KeyError k) end,
   mkWorld f (PDict d) out cl n).
Proof. unfold getitem. simpl. now destruct (lookup d k). Qed.

Lemma save_spec `{Env} w :
  save w = (Return tt, mkWorld (Some (json_dumps (config w))) (config w)
                               (console w) (calls w) (slept w)).
Proof. reflexivity. Qed.

Lemma load_or_init_present `{Env} w text :
  file w = Some text ->
  load_or_init w =
  match json_loads text with
  | Some v => (Return tt, mkWorld (Some text) v (console w ++ [(INF, LoadingConfig)])
                                  (calls w) (slept w))
  | None => (Raise JSONDecodeError,
             mkWorld (Some text) (config w) (console w ++ [(INF, LoadingConfig)])
                     (calls w) (slept w))
  end.
Proof.
  destruct w as [f c out cl n]. simpl. intros ->.
  unfold load_or_init, bind, path_exists, json_load, bind, open_r. simpl.
  now destruct (json_loads text).
Qed.

Lemma set_mqtt_server_dict `{Env} f d out cl n server port :
  set_mqtt_server server port (mkWorld f (PDict d) out cl n) =
  (Return tt,
   mkWorld (Some (json_dumps (PDict (store (store d "server" (PStr server)) "port" (PInt port)))))
           (PDict (store (store d "server" (PStr server)) "port" (PInt port)))
           (out ++ [(INF, SettingServer server port)]) cl n).
Proof. reflexivity. Qed.

Lemma set_credentials_dict `{Env} f d out cl n username password :
  set_credentials username password (mkWorld f (PDict d) out cl n) =
  (Return tt,
   mkWorld (Some (json_dumps (PDict (store (store d "username" (PStr username))
                                           "password" (PStr password)))))
           (PDict (store (store d "username" (PStr username)) "password" (PStr password)))
           (out ++ [(INF, SettingCredentials username password)]) cl n).
Proof. reflexivity. Qed.

Lemma MqttClient_init_dict `{Env} f d out cl n cid pr tr ud cs :
  lookup d "client_id" = Some cid -> lookup d "protocol" = Some pr ->
  lookup d "transport" = Some tr -> lookup d "userdata" = Some ud ->
  lookup d "clean_session" = Some cs ->
  client_raises (Client cid pr tr ud cs) = None ->
  let built :=
    cl ++ [ Client cid pr tr ud cs; SetCallback "on_connect"; SetCallback "on_message";
            SetCallback "on_subscribe"; SetCallback "on_log" ] in
  MqttClient_init (mkWorld f (PDict d) out cl n) =
  match lookup d "username" with
  | None => (Raise (KeyError "username"), mkWorld f (PDict d) out built n)
  | Some u =>
      if truthy u then
        match lookup d "password" with
        | None => (Raise (KeyError "password"), mkWorld f (PDict d) out built n)
        | Some p =>
            if truthy p then
              (match client_raises (UsernamePwSet u p) with
               | Some e => Raise e
               | None => Return tt
               end,
               mkWorld f (PDict d) out (built ++ [UsernamePwSet u p]) n)
            else (Return tt, mkWorld f (PDict d) out built n)
        end
      else (Return tt, mkWorld f (PDict d) out built n)
  end.
Proof.
  intros H1 H2 H3 H4 H5 Hc built. unfold MqttClient_init, bind.
  rewrite !getitem_dict, H1, H2, H3, H4, H5. unfold client at 1. rewrite Hc.
  cbn [calls file config console slept set_callback].
  repeat rewrite <- app_assoc. cbn [app]. fold built.
  rewrite getitem_dict.
  destruct (lookup d "username") as [u|] eqn:Eu; [|reflexivity].
  destruct (truthy u); [|reflexivity].
  rewrite getitem_dict.
  destruct (lookup d "password") as [p|] eqn:Ep; [|reflexivity].
  unfold ret. destruct (truthy p); [|reflexivity].
  rewrite !getitem_dict, Eu, Ep. unfold client. cbn [calls file config console slept].
  now destruct (client_raises (UsernamePwSet u p)).
Qed.

Lemma connect_dict `{Env} f d out cl n s po :
  lookup d "server" = Some s -> lookup d "port" = Some po ->
  connect (mkWorld f (PDict d) out cl n) =
  (match client_raises (Connect s po) with Some e => Raise e | None => Return tt end,
   mkWorld f (PDict d) (out ++ [(INF, Connecting s po)]) (cl ++ [Connect s po]) n).
Proof.
  intros Hs Hp. unfold connect, bind. rewrite !getitem_dict, Hs, Hp.
  cbn [pr_inf file config console calls slept]. rewrite !getitem_dict, Hs, Hp.
  unfold client. cbn [file config console calls slept].
  now destruct (client_raises (Connect s po)).
Qed.

Lemma while_True_sleep `{Env} fuel f c out cl n :
  while_True fuel sleep (mkWorld f c out cl n) =
  match sigint with
  | Some k =>
      if ((n <=? k) && (k <? n + fuel))%nat
      then (Raise KeyboardInterrupt, mkWorld f c out cl k)
      else (Running, mkWorld f c out cl (n + fuel))
  | None => (Running, mkWorld f c out cl (n + fuel))
  end.
Proof.
  revert n. induction fuel as [|fuel IH]; intros n.
  - simpl. rewrite Nat.add_0_r.
    destruct sigint as [k|]; [|reflexivity].
    replace ((n <=? k) && (k <? n))%nat with false; [reflexivity|].
    destruct (n <=? k)%nat eqn:E1, (k <? n)%nat eqn:E2; try reflexivity.
    apply Nat.leb_le in E1. apply Nat.ltb_lt in E2. lia.
  - cbn [while_True]. unfold bind, sleep at 1. cbn [slept file config console calls].
    destruct sigint as [k|] eqn:Es.
    + destruct (Nat.eqb k n) eqn:E.
      * apply Nat.eqb_eq in E. subst k.
        replace ((n <=? n) && (n <? n + S fuel))%nat with true; [reflexivity|].
        symmetry. apply andb_true_iff. split; [apply Nat.leb_le | apply Nat.ltb_lt]; lia.
      * rewrite IH. apply Nat.eqb_neq in E.
        replace ((S n <=? k) && (k <? S n + fuel))%nat
          with ((n <=? k) && (k <? n + S fuel))%nat.
        -- replace (S n + fuel) with (n + S fuel) by lia. reflexivity.
        -- destruct (n <=? k)%nat eqn:E1, (k <? n + S fuel)%nat eqn:E2,
             (S n <=? k)%nat eqn:E3, (k <? S n + fuel)%nat eqn:E4; try reflexivity;
             rewrite ?Nat.leb_le, ?Nat.leb_gt, ?Nat.ltb_lt, ?Nat.ltb_ge in *; lia.
    + rewrite IH. replace (S n + fuel) with (n + S fuel) by lia. reflexivity.
Qed.

Lemma view_messages_dict `{Env} f d out cl n s po topic fuel :
  lookup d "server" = Some s -> lookup d "port" = Some po ->
  client_raises (Connect s po) = None ->
  client_raises (Subscribe topic) = None ->
  client_raises LoopStart = None ->
  client_raises LoopStop = None ->
  let w := mkWorld f (PDict d) out cl n in
  let waiting := out ++ [(INF, Connecting s po); (INF, Viewing topic); (INF, PressCtrlC)] in
  let asked := cl ++ [Connect s po; Subscribe topic; LoopStart] in
  view_messages fuel topic w =
  if interrupted w fuel
  then (Return tt,
        mkWorld f (PDict d) (waiting ++ [(INF, Exiting)]) (asked ++ [LoopStop])
                (match sigint with Some k => k | None => n end))
  else (Running, mkWorld f (PDict d) waiting asked (n + fuel)).
Proof.
  intros Hs Hp H1 H2 H3 H4 w waiting asked. unfold w, waiting, asked.
  unfold view_messages. unfold bind at 1.
  rewrite (connect_dict f d out cl n s po Hs Hp), H1.
  unfold try_except_KeyboardInterrupt, bind, pr_inf, client.
  cbn [file config console calls slept]. rewrite H2, H3, while_True_sleep.
  unfold interrupted. cbn [slept].
  destruct sigint as [k|]; [destruct ((n <=? k) && (k <? n + fuel))%nat|];
    cbn [file config console calls slept]; rewrite ?H4;
    cbn [file config console calls slept]; repeat rewrite <- app_assoc; reflexivity.
Qed.

(** *** The calls made only grow *)

Lemma calls_grow_bind {A B} (m : M A) (k : A -> M B) :
  (forall w o w', m w = (o, w') -> exists more, calls w' = calls w ++ more) ->
  (forall a w o w', k a w = (o, w') -> exists more, calls w' = calls w ++ more) ->
  forall w o w', bind m k w = (o, w') -> exists more, calls w' = calls w ++ more.
Proof.
  intros Hm Hk w o w'. unfold bind. destruct (m w) as [[a|e|] w1] eqn:Em; intros Eq.
  - destruct (Hm _ _ _ Em) as [m1 H1]. destruct (Hk _ _ _ _ Eq) as [m2 H2].
    exists (m1 ++ m2). now rewrite H2, H1, app_assoc.
  - inversion Eq; subst. eauto.
  - inversion Eq; subst. eauto.
Qed.

Lemma calls_grow_pr_inf m w o w' :
  pr_inf m w = (o, w') -> exists more, calls w' = calls w ++ more.
Proof. intros Eq. inversion Eq. exists []. simpl. now rewrite app_nil_r. Qed.

Lemma calls_grow_client `{Env} c w o w' :
  client c w = (o, w') -> exists more, calls w' = calls w ++ more.
Proof.
  unfold client. intros Eq. exists [c].
  destruct (client_raises c); inversion Eq; reflexivity.
Qed.

Lemma calls_grow_sleep `{Env} w o w' :
  sleep w = (o, w') -> exists more, calls w' = calls w ++ more.
Proof.
  unfold sleep. intros Eq. exists []. rewrite app_nil_r.
  destruct (match sigint with Some k => Nat.eqb k (slept w) | None => false end);
    inversion Eq; reflexivity.
Qed.

Lemma calls_grow_while `{Env} fuel w o w' :
  while_True fuel sleep w = (o, w') -> exists more, calls w' = calls w ++ more.
Proof.
  revert w o w'. induction fuel as [|fuel IH]; intros w o w'; simpl.
  - intros Eq. inversion Eq. exists []. now rewrite app_nil_r.
  - apply calls_grow_bind; [apply calls_grow_sleep | intros _; apply IH].
Qed.

Lemma calls_grow_try (body handler : M unit) :
  (forall w o w', body w = (o, w') -> exists more, calls w' = calls w ++ more) ->
  (forall w o w', handler w = (o, w') -> exists more, calls w' = calls w ++ more) ->
  forall w o w', try_except_KeyboardInterrupt body handler w = (o, w') ->
  exists more, calls w' = calls w ++ more.
Proof.
  intros Hb Hh w o w'. unfold try_except_KeyboardInterrupt.
  destruct (body w) as [ob w1] eqn:Eb. destruct (Hb _ _ _ Eb) as [m1 H1].
  assert (Hkeep : (ob, w1) = (o, w') -> exists more, calls w' = calls w ++ more).
  { intros Eq. inversion Eq; subst. eauto. }
  destruct ob as [a|e|]; auto. destruct e; auto.
  intros Eh. destruct (Hh _ _ _ Eh) as [m2 H2].
  exists (m1 ++ m2). now rewrite H2, H1, app_assoc.
Qed.

Create HintDb grow.

#[local] Hint Resolve calls_grow_pr_inf calls_grow_client calls_grow_sleep
  calls_grow_while : grow.

Ltac grow :=
  repeat first
    [ apply calls_grow_bind; [|intros ?]
    | apply calls_grow_try
    | solve [eauto with grow] ].

(** The calls of an operation that starts with [connect] start with the
    connect. *)
Lemma connect_first `{Env} (k : M unit) f d out cl n s po :
  lookup d "server" = Some s -> lookup d "port" = Some po ->
  (forall w o w', k w = (o, w') -> exists more, calls w' = calls w ++ more) ->
  exists rest,
    calls (snd ((connect ;; k) (mkWorld f (PDict d) out cl n))) = cl ++ [Connect s po] ++ rest.
Proof.
  intros Hs Hp Hk. unfold bind. rewrite (connect_dict f d out cl n s po Hs Hp).
  destruct (client_raises (Connect s po)) as [e|].
  - exists []. simpl. reflexivity.
  - match goal with |- context [k ?w] => destruct (k w) as [o w'] eqn:Ek end.
    destruct (Hk _ _ _ Ek) as [more Hm]. exists more.
    simpl in *. rewrite Hm, <- app_assoc. reflexivity.
Qed.

(** *** The configuration file *)

(** C1.  A run that finds no configuration file creates it: the file holds
    the dump of the dictionary literal, whose entries are the documented
    defaults (a setting that is absent is [None]); the creation is reported
    on the console; the dictionary in memory is that same record. *)
Theorem load_or_init_creates_defaults `{Env} :
  load_or_init (boot None) =
    (Return tt,
     mkWorld (Some (json_dumps DEFAULT_CONFIG_SCHEMA)) DEFAULT_CONFIG_SCHEMA
             [(ERR, CreatingConfig)] [] 0)
  /\ DEFAULT_CONFIG_SCHEMA =
       PDict [ ("server", PStr "localhost"); ("port", PInt 1883);
               ("client_id", PStr "mqtt-cli"); ("clean_session", PBool true);
               ("userdata", PNone); ("username", PNone); ("password", PNone);
               ("protocol", PInt 4); ("transport", PStr "tcp") ].
Proof. split; reflexivity. Qed.

(** C2.  What [save] writes, [load_or_init] reads back unchanged, whatever
    the dictionary in memory is when it runs. *)
Theorem save_then_load_or_init `{Env} (w w0 : world) :
  json_round_trip -> wf (config w) = true ->
  file w0 = file (snd (save w)) ->
  fst (save w) = Return tt /\
  fst (load_or_init w0) = Return tt /\
  config (snd (load_or_init w0)) = config w /\
  file (snd (load_or_init w0)) = file (snd (save w)).
Proof.
  intros HR Hwf Hf. rewrite save_spec in *. simpl in Hf.
  rewrite (load_or_init_present w0 _ Hf), (HR _ Hwf). simpl. auto.
Qed.

Lemma save_then_load_or_init_witness :
  let w := at_rest None (PDict tagged) in
  let w0 := boot (file (snd (@save calm w))) in
  fst (@load_or_init calm w0) = Return tt /\
  config (snd (@load_or_init calm w0)) = PDict tagged.
Proof.
  intros w w0.
  destruct (@save_then_load_or_init calm w w0 ref_loads_dumps eq_refl eq_refl)
    as (_ & R & C & _).
  split; [exact R | exact C].
Defined.

(** C3.  A configuration file that is there decides the whole record: the
    dictionary becomes the value the file holds and nothing of the
    dictionary literal is kept, so a key the file leaves out is a
    [KeyError] afterwards; a file that is not JSON ends the run with
    [JSONDecodeError] (the specification's [ConfigCorruptError]). *)
Theorem load_or_init_replaces_defaults `{Env} (w : world) (text : string) :
  file w = Some text ->
  match json_loads text with
  | Some v =>
      fst (load_or_init w) = Return tt /\
      config (snd (load_or_init w)) = v /\
      file (snd (load_or_init w)) = Some text /\
      forall d k, v = PDict d -> lookup d k = None ->
        fst (getitem k (snd (load_or_init w))) = Raise (KeyError k)
  | None =>
      fst (load_or_init w) = Raise JSONDecodeError /\
      file (snd (load_or_init w)) = Some text
  end.
Proof.
  intros Hf. rewrite (load_or_init_present w text Hf).
  destruct (json_loads text) as [v|]; simpl; repeat split.
  intros d k -> Hk. rewrite getitem_dict, Hk. reflexivity.
Qed.

Lemma load_or_init_replaces_defaults_witness :
  let text := ref_dumps (PDict [("server", PStr "test.broker.io")]) in
  let w := snd (@load_or_init calm (boot (Some text))) in
  config w = PDict [("server", PStr "test.broker.io")] /\
  fst (getitem "port" w) = Raise (KeyError "port").
Proof.
  intros text w.
  pose proof (@load_or_init_replaces_defaults calm (boot (Some text)) text eq_refl) as P.
  change (@json_loads calm text) with (ref_loads text) in P.
  replace (ref_loads text) with (Some (PDict [("server", PStr "test.broker.io")])) in P
    by (vm_compute; reflexivity).
  destruct P as (_ & C & _ & K). split; [exact C|].
  exact (K _ "port" eq_refl eq_refl).
Defined.

(** *** The connection *)

(** C4 as it is stated, with a handle built with no [userdata], fails on
    a configuration that carries one: the handle is built with it. *)
Lemma userdata_comes_from_config :
  ~ exists cid pr tr cs u p s po,
      @establishes calm (at_rest None (PDict tagged)) (@publish calm "sensors/temp" "21.5" 0 false)
        (handshake cid pr tr PNone cs u p s po).
Proof.
  intros (cid & pr & tr & cs & u & p & s & po & rest & Hr).
  vm_compute in Hr. discriminate Hr.
Qed.

(** C4, as the code has it.  Whenever the handle can be built from the
    dictionary, [publish], [subscribe] and [view_messages] establish the
    connection by the same calls: the handle with the dictionary's
    [client_id], [protocol], [transport], [clean_session] and [userdata],
    the credentials when both are given, then the connect to the
    dictionary's server and port.  The [userdata] is [None] in the
    dictionary literal. *)
Theorem connection_establishment `{Env} (f : option string) d out cl n
  cid pr tr ud cs u p s po :
  lookup d "client_id" = Some cid -> lookup d "protocol" = Some pr ->
  lookup d "transport" = Some tr -> lookup d "userdata" = Some ud ->
  lookup d "clean_session" = Some cs ->
  lookup d "username" = Some u -> lookup d "password" = Some p ->
  lookup d "server" = Some s -> lookup d "port" = Some po ->
  client_raises (Client cid pr tr ud cs) = None ->
  client_raises (UsernamePwSet u p) = None ->
  forall topic payload qos retain fuel,
    let w := mkWorld f (PDict d) out cl n in
    let hs := handshake cid pr tr ud cs u p s po in
    establishes w (publish topic payload qos retain) hs /\
    establishes w (subscribe topic) hs /\
    establishes w (view_messages fuel topic) hs /\
    (PDict d = DEFAULT_CONFIG_SCHEMA -> ud = PNone).
Proof.
  intros H1 H2 H3 H4 H5 Hu Hp Hs Hpo Hc Hcr topic payload qos retain fuel w hs.
  assert (Hall : forall k : M unit,
             (forall w o w', k w = (o, w') -> exists more, calls w' = calls w ++ more) ->
             establishes w (connect ;; k) hs).
  { intros k Hk. unfold establishes, w, hs, handshake.
    unfold bind at 1. rewrite (MqttClient_init_dict f d out cl n cid pr tr ud cs) by assumption.
    rewrite Hu, Hp.
    destruct (truthy u); [destruct (truthy p)|]; cbn [andb]; try rewrite Hcr;
      match goal with
      | |- context [(connect ;; k) (mkWorld ?f' ?c' ?o' ?l' ?n')] =>
          destruct (connect_first k f' d o' l' n' s po Hs Hpo Hk) as [rest Hr];
          exists rest; rewrite Hr
      end; cbn [calls]; repeat rewrite <- app_assoc; reflexivity. }
  repeat split; try (apply Hall; grow).
  intros Hd. inversion Hd; subst d. simpl in H4. congruence.
Qed.

Lemma connection_establishment_witness :
  @establishes calm (at_rest None (PDict tagged)) (@publish calm "sensors/temp" "21.5" 0 false)
    [ Client (PStr "mqtt-cli") (PInt 4) (PStr "tcp") (PStr "tag") (PBool true);
      SetCallback "on_connect"; SetCallback "on_message";
      SetCallback "on_subscribe"; SetCallback "on_log";
      UsernamePwSet (PStr "alice") (PStr "secret");
      Connect (PStr "localhost") (PInt 1883) ].
Proof.
  apply (@connection_establishment calm None tagged [] [] 0
           (PStr "mqtt-cli") (PInt 4) (PStr "tcp") (PStr "tag") (PBool true)
           (PStr "alice") (PStr "secret") (PStr "localhost") (PInt 1883)
           eq_refl eq_refl eq_refl eq_refl eq_refl eq_refl eq_refl eq_refl eq_refl
           eq_refl eq_refl "sensors/temp" "21.5" 0%Z false 0).
Defined.

(** C5.  On a handle that is built, the credentials are set exactly when
    the user name and the password are both given; a user name without a
    password sets none.  For the strings and [None] that the commands
    store, given means a string that is not empty. *)
Theorem credentials_need_both `{Env} (f : option string) d out n cid pr tr ud cs :
  lookup d "client_id" = Some cid -> lookup d "protocol" = Some pr ->
  lookup d "transport" = Some tr -> lookup d "userdata" = Some ud ->
  lookup d "clean_session" = Some cs ->
  client_raises (Client cid pr tr ud cs) = None ->
  let made := calls (snd (MqttClient_init (mkWorld f (PDict d) out [] n))) in
  ((exists u p, In (UsernamePwSet u p) made) <->
   given (lookup d "username") = true /\ given (lookup d "password") = true) /\
  (forall u p, In (UsernamePwSet u p) made ->
     lookup d "username" = Some u /\ lookup d "password" = Some p) /\
  (given (lookup d "password") = false -> forall u p, ~ In (UsernamePwSet u p) made) /\
  (forall s, given (Some (PStr s)) = true <-> s <> EmptyString) /\
  given (Some PNone) = false /\ given None = false.
Proof.
  intros H1 H2 H3 H4 H5 Hc made.
  assert (Hmade : forall u p, In (UsernamePwSet u p) made <->
            lookup d "username" = Some u /\ lookup d "password" = Some p /\
            truthy u = true /\ truthy p = true).
  { intros u p. unfold made.
    rewrite (MqttClient_init_dict f d out [] n cid pr tr ud cs) by assumption.
    destruct (lookup d "username") as [u0|]; [destruct (truthy u0) eqn:Tu|];
      [destruct (lookup d "password") as [p0|]; [destruct (truthy p0) eqn:Tp|]| |];
      cbn [snd calls app In]; split;
      try (intros [E|[E|[E|[E|[E|[]]]]]]; discriminate E);
      try (intros (E1 & E2 & E3 & E4); congruence).
    - intros [E|[E|[E|[E|[E|[E|[]]]]]]]; try discriminate E.
      inversion E; subst. auto.
    - intros (E1 & E2 & _). inversion E1; inversion E2; subst. auto 10. }
  split; [split|split; [|split; [|split; [|split]]]].
  - intros (u & p & Hin). apply Hmade in Hin as (Eu & Ep & Tu & Tp).
    rewrite Eu, Ep. auto.
  - intros [Gu Gp]. destruct (lookup d "username") as [u|] eqn:Eu; [|discriminate].
    destruct (lookup d "password") as [p|] eqn:Ep; [|discriminate].
    exists u, p. apply Hmade. auto.
  - intros u p Hin. apply Hmade in Hin. tauto.
  - intros Gp u p Hin. apply Hmade in Hin as (Eu & Ep & Tu & Tp).
    rewrite Ep in Gp. simpl in Gp. congruence.
  - intros s. simpl. destruct s; split; (discriminate || congruence || reflexivity).
  - reflexivity.
  - reflexivity.
Qed.

Lemma credentials_need_both_witness :
  (exists u p,
     In (UsernamePwSet u p)
        (calls (snd (@MqttClient_init calm (at_rest None (PDict only_username)))))) <->
  given (lookup only_username "username") = true /\
  given (lookup only_username "password") = true.
Proof.
  apply (@credentials_need_both calm None only_username [] 0
           (PStr "mqtt-cli") (PInt 4) (PStr "tcp") PNone (PBool true)
           eq_refl eq_refl eq_refl eq_refl eq_refl eq_refl).
Defined.

(** *** The commands *)

(** C6.  [set_mqtt_server] returns without a call on the client, and a run
    that loads the file it wrote finds the new server and port and every
    other entry as it was. *)
Theorem set_mqtt_server_then_reload `{Env} (w w0 : world) d server port :
  json_round_trip -> config w = PDict d -> wf (PDict d) = true ->
  file w0 = file (snd (set_mqtt_server server port w)) ->
  fst (set_mqtt_server server port w) = Return tt /\
  calls (snd (set_mqtt_server server port w)) = calls w /\
  exists d',
    fst (load_or_init w0) = Return tt /\
    config (snd (load_or_init w0)) = PDict d' /\
    lookup d' "server" = Some (PStr server) /\
    lookup d' "port" = Some (PInt port) /\
    forall k, k <> "server" -> k <> "port" -> lookup d' k = lookup d k.
Proof.
  intros HR Hc Hwf Hf. destruct w as [f c out cl n]. simpl in Hc. subst c.
  rewrite set_mqtt_server_dict in *. simpl in Hf. simpl.
  split; [reflexivity|]. split; [reflexivity|].
  exists (store (store d "server" (PStr server)) "port" (PInt port)).
  rewrite (load_or_init_present w0 _ Hf), HR by (repeat apply wf_store; auto).
  simpl. repeat split.
  - rewrite lookup_store_other by discriminate. apply lookup_store_same.
  - apply lookup_store_same.
  - intros k Hs Hp. rewrite !lookup_store_other; congruence.
Qed.

Lemma set_mqtt_server_then_reload_witness :
  let w := at_rest None DEFAULT_CONFIG_SCHEMA in
  let w0 := boot (file (snd (@set_mqtt_server calm "broker.example.com" 8883 w))) in
  exists d',
    config (snd (@load_or_init calm w0)) = PDict d' /\
    lookup d' "server" = Some (PStr "broker.example.com") /\
    lookup d' "port" = Some (PInt 8883) /\
    lookup d' "client_id" = Some (PStr "mqtt-cli").
Proof.
  intros w w0.
  destruct (@set_mqtt_server_then_reload calm w w0 _ "broker.example.com" 8883
              ref_loads_dumps eq_refl eq_refl eq_refl)
    as (_ & _ & d' & _ & C & S & P & K).
  exists d'. repeat split; try assumption.
  rewrite K by discriminate. reflexivity.
Defined.

(** C7 as it is stated fails for a broker that rejects the connection:
    the connect returns, the refusal raises nothing in [publish], and the
    message is handed to the client. *)
Lemma rejected_connection_still_publishes :
  ~ fails_without_sending (at_rest None DEFAULT_CONFIG_SCHEMA)
      (@publish (facing (Refuses 5)) "sensors/temp" "21.5" 0 false
         (at_rest None DEFAULT_CONFIG_SCHEMA)).
Proof.
  intros [[e He] _]. vm_compute in He. discriminate He.
Qed.

(** C7, as the code has it.  [publish] fails exactly as its connect does:
    when the connect raises, as in front of a broker that cannot be
    reached, [publish] ends with that same exception, the connect is the
    last call made and nothing is published; when the connect returns,
    the publish request is made. *)
Theorem publish_stops_at_failed_connect `{Env} (w : world) d s po
  topic payload qos retain :
  config w = PDict d -> lookup d "server" = Some s -> lookup d "port" = Some po ->
  match client_raises (Connect s po) with
  | Some e =>
      fst (publish topic payload qos retain w) = Raise e /\
      calls (snd (publish topic payload qos retain w)) = calls w ++ [Connect s po] /\
      fails_without_sending w (publish topic payload qos retain w) /\
      file (snd (publish topic payload qos retain w)) = file w /\
      config (snd (publish topic payload qos retain w)) = config w
  | None =>
      calls (snd (publish topic payload qos retain w)) =
        calls w ++ [Connect s po; Publish topic payload qos retain]
  end.
Proof.
  intros Hc Hs Hp. destruct w as [f c out cl n]. simpl in Hc. subst c.
  unfold fails_without_sending, publish, bind.
  rewrite (connect_dict f d out cl n s po Hs Hp).
  destruct (client_raises (Connect s po)) as [e|].
  - simpl. repeat split; [eauto|].
    intros t m q r Hin. apply in_app_or in Hin as [Hin|[Hin|[]]]; [assumption|].
    discriminate Hin.
  - unfold pr_inf, client. cbn [file config console calls slept].
    destruct (client_raises (Publish topic payload qos retain));
      simpl; now rewrite <- app_assoc.
Qed.

Lemma publish_stops_at_failed_connect_witness :
  let w := at_rest None DEFAULT_CONFIG_SCHEMA in
  fst (@publish (facing Unreachable) "sensors/temp" "21.5" 0 false w) =
    Raise (OSError "Connection refused") /\
  calls (snd (@publish (facing Unreachable) "sensors/temp" "21.5" 0 false w)) =
    [Connect (PStr "localhost") (PInt 1883)] /\
  calls (snd (@publish (facing (Refuses 5)) "sensors/temp" "21.5" 0 false w)) =
    [Connect (PStr "localhost") (PInt 1883); Publish "sensors/temp" "21.5" 0 false].
Proof.
  intros w.
  pose proof (@publish_stops_at_failed_connect (facing Unreachable) w _
                (PStr "localhost") (PInt 1883) "sensors/temp" "21.5" 0%Z false
                eq_refl eq_refl eq_refl) as Down.
  pose proof (@publish_stops_at_failed_connect (facing (Refuses 5)) w _
                (PStr "localhost") (PInt 1883) "sensors/temp" "21.5" 0%Z false
                eq_refl eq_refl eq_refl) as Up.
  cbn [client_raises facing] in Down, Up.
  destruct Down as (R & C & _). split; [exact R|]. split; [exact C | exact Up].
Defined.

(** C8.  With the broker at hand, [view_messages] waits in its loop until
    the interrupt: it returns, normally, exactly when the interrupt falls
    in one of the rounds the model runs, and then [loop_stop] is the last
    call it made; without the interrupt it is still waiting, however many
    rounds are run. *)
Theorem view_messages_stops_on_interrupt `{Env} (w : world) d s po topic fuel :
  config w = PDict d -> lookup d "server" = Some s -> lookup d "port" = Some po ->
  client_raises (Connect s po) = None ->
  client_raises (Subscribe topic) = None ->
  client_raises LoopStart = None ->
  client_raises LoopStop = None ->
  fst (view_messages fuel topic w) =
    (if interrupted w fuel then Return tt else Running) /\
  calls (snd (view_messages fuel topic w)) =
    calls w ++ [Connect s po; Subscribe topic; LoopStart] ++
    (if interrupted w fuel then [LoopStop] else []) /\
  (forall k, sigint = Some k -> slept w <= k < slept w + fuel ->
     fst (view_messages fuel topic w) = Return tt /\
     exists before, calls (snd (view_messages fuel topic w)) = before ++ [LoopStop]) /\
  (sigint = None -> fst (view_messages fuel topic w) = Running).
Proof.
  intros Hc Hs Hp H1 H2 H3 H4. destruct w as [f c out cl n]. simpl in Hc. subst c.
  rewrite (view_messages_dict f d out cl n s po topic fuel) by assumption.
  split; [|split; [|split]].
  - destruct (interrupted _ fuel); reflexivity.
  - destruct (interrupted _ fuel); simpl; rewrite <- ?app_assoc; reflexivity.
  - intros k Hk [Hlo Hhi]. unfold interrupted. rewrite Hk. cbn [slept] in *.
    replace ((n <=? k) && (k <? n + fuel))%nat with true.
    + split; [reflexivity|]. eexists. reflexivity.
    + symmetry. apply andb_true_iff. split; [apply Nat.leb_le | apply Nat.ltb_lt]; lia.
  - intros Hn. unfold interrupted. rewrite Hn. reflexivity.
Qed.

Lemma view_messages_stops_on_interrupt_witness :
  let w := at_rest None DEFAULT_CONFIG_SCHEMA in
  fst (@view_messages calm 5 "sensors/#" w) = Return tt /\
  calls (snd (@view_messages calm 5 "sensors/#" w)) =
    [Connect (PStr "localhost") (PInt 1883); Subscribe "sensors/#"; LoopStart; LoopStop].
Proof.
  intros w.
  destruct (@view_messages_stops_on_interrupt calm w _
              (PStr "localhost") (PInt 1883) "sensors/#" 5
              eq_refl eq_refl eq_refl eq_refl eq_refl eq_refl eq_refl)
    as (R & C & _). split; [exact R | exact C].
Defined.

(** C9.  A second [set_mqtt_server] with the same server and port leaves
    the file as the first one wrote it, text for text: in the same run,
    and in a later run that has loaded that file. *)
Theorem set_mqtt_server_twice `{Env} (w w0 : world) d server port :
  json_round_trip -> config w = PDict d -> wf (PDict d) = true ->
  let once := snd (set_mqtt_server server port w) in
  file w0 = file once ->
  file (snd (set_mqtt_server server port once)) = file once /\
  config (snd (set_mqtt_server server port once)) = config once /\
  fst ((load_or_init ;; set_mqtt_server server port) w0) = Return tt /\
  file (snd ((load_or_init ;; set_mqtt_server server port) w0)) = file once.
Proof.
  intros HR Hc Hwf once Hf. destruct w as [f c out cl n]. simpl in Hc. subst c.
  unfold once in *. clear once. rewrite set_mqtt_server_dict in *. cbn [snd file] in *.
  set (d1 := store (store d "server" (PStr server)) "port" (PInt port)) in *.
  assert (Hd1 : store (store d1 "server" (PStr server)) "port" (PInt port) = d1).
  { rewrite (store_present d1 "server" (PStr server)).
    - apply store_present. apply lookup_store_same.
    - unfold d1. rewrite lookup_store_other by discriminate. apply lookup_store_same. }
  rewrite set_mqtt_server_dict, Hd1. cbn [fst snd file config].
  split; [reflexivity|]. split; [reflexivity|].
  unfold bind. rewrite (load_or_init_present w0 _ Hf), HR
    by (unfold d1; repeat apply wf_store; auto).
  rewrite set_mqtt_server_dict, Hd1. split; reflexivity.
Qed.

Lemma set_mqtt_server_twice_witness :
  let w := at_rest None DEFAULT_CONFIG_SCHEMA in
  let once := snd (@set_mqtt_server calm "broker.example.com" 8883 w) in
  file (snd (@set_mqtt_server calm "broker.example.com" 8883 once)) = file once /\
  file (snd ((@load_or_init calm ;; @set_mqtt_server calm "broker.example.com" 8883)
               (boot (file once)))) = file once.
Proof.
  intros w once.
  destruct (@set_mqtt_server_twice calm w (boot (file once)) _ "broker.example.com" 8883
              ref_loads_dumps eq_refl eq_refl eq_refl)
    as (F & _ & _ & F'). split; [exact F | exact F'].
Defined.

(** C10.  Either setter, run on a dictionary, returns with the file
    holding the dump of the whole dictionary as it then is in memory:
    the entries it stored and every other entry. *)
Theorem setters_rewrite_whole_record `{Env} (w : world) d :
  config w = PDict d ->
  (forall server port,
     fst (set_mqtt_server server port w) = Return tt /\
     config (snd (set_mqtt_server server port w)) =
       PDict (store (store d "server" (PStr server)) "port" (PInt port)) /\
     file (snd (set_mqtt_server server port w)) =
       Some (json_dumps (config (snd (set_mqtt_server server port w))))) /\
  (forall username password,
     fst (set_credentials username password w) = Return tt /\
     config (snd (set_credentials username password w)) =
       PDict (store (store d "username" (PStr username)) "password" (PStr password)) /\
     file (snd (set_credentials username password w)) =
       Some (json_dumps (config (snd (set_credentials username password w))))).
Proof.
  intros Hc. destruct w as [f c out cl n]. simpl in Hc. subst c.
  split; intros a b; [rewrite set_mqtt_server_dict | rewrite set_credentials_dict];
    repeat split.
Qed.

Lemma setters_rewrite_whole_record_witness :
  let w := at_rest None DEFAULT_CONFIG_SCHEMA in
  file (snd (@set_credentials calm "alice" "secret" w)) =
  Some (ref_dumps (config (snd (@set_credentials calm "alice" "secret" w)))).
Proof.
  intros w.
  destruct (@setters_rewrite_whole_record calm w _ eq_refl) as [_ C].
  destruct (C "alice" "secret") as (_ & _ & F). exact F.
Defined.

(** The first scenario of the specification: on a machine without a
    configuration file, [set-mqtt-server test.broker.io 1883] leaves a file
    with that server and port and the defaults otherwise, and connects to
    nothing. *)
Example first_run_set_mqtt_server :
  let w := snd (@main calm 0 (SetMqttServerCmd "test.broker.io" "1883") (boot None)) in
  file w =
    Some (ref_dumps
            (PDict [ ("server", PStr "test.broker.io"); ("port", PInt 1883);
                     ("client_id", PStr "mqtt-cli"); ("clean_session", PBool true);
                     ("userdata", PNone); ("username", PNone); ("password", PNone);
                     ("protocol", PInt 4); ("transport", PStr "tcp") ])) /\
  calls w =
    [ Client (PStr "mqtt-cli") (PInt 4) (PStr "tcp") PNone (PBool true);
      SetCallback "on_connect"; SetCallback "on_message";
      SetCallback "on_subscribe"; SetCallback "on_log" ].
Proof. split; vm_compute; reflexivity. Qed.

(* ================================================================= *)
(** ** Further properties of the script *)

(** *** What an operation leaves alone *)

Lemma same_disk_refl w : same_disk w w.
Proof. split; reflexivity. Qed.

Lemma same_disk_trans a b c : same_disk a b -> same_disk b c -> same_disk a c.
Proof. intros [F1 C1] [F2 C2]. split; congruence. Qed.

Lemma asks_only_refl P w : asks_only P w w.
Proof. exists []. split; [now rewrite app_nil_r | constructor]. Qed.

Lemma asks_only_trans P a b c : asks_only P a b -> asks_only P b c -> asks_only P a c.
Proof.
  intros (m1 & E1 & F1) (m2 & E2 & F2). exists (m1 ++ m2). split.
  - now rewrite E2, E1, app_assoc.
  - apply Forall_app. auto.
Qed.

Lemma within_bind R {A B} (m : M A) (k : A -> M B) :
  (forall a b c, R a b -> R b c -> R a c) ->
  within R m -> (forall a, within R (k a)) -> within R (bind m k).
Proof.
  intros HT Hm Hk w. unfold bind. specialize (Hm w).
  destruct (m w) as [[a|e|] w1]; simpl in *; auto.
  eapply HT; [exact Hm | apply Hk].
Qed.

Lemma within_try R (body handler : M unit) :
  (forall a b c, R a b -> R b c -> R a c) ->
  within R body -> within R handler ->
  within R (try_except_KeyboardInterrupt body handler).
Proof.
  intros HT Hb Hh w. unfold try_except_KeyboardInterrupt. specialize (Hb w).
  destruct (body w) as [[a|e|] w1]; simpl in *; auto.
  destruct e; simpl; auto. eapply HT; [exact Hb | apply Hh].
Qed.

Lemma within_while R (body : M unit) fuel :
  (forall a, R a a) -> (forall a b c, R a b -> R b c -> R a c) ->
  within R body -> within R (while_True fuel body).
Proof.
  intros HR HT Hb. induction fuel as [|fuel IH]; simpl.
  - intros w. apply HR.
  - apply within_bind; auto.
Qed.

(** A statement that makes no call and leaves the file and the dictionary
    alone is within both relations. *)
Lemma quiet_same_disk {A} (m : M A) :
  (forall w, file (snd (m w)) = file w /\ config (snd (m w)) = config w) ->
  within same_disk m.
Proof. intros Hm w. apply Hm. Qed.

Lemma quiet_asks_only P {A} (m : M A) :
  (forall w, calls (snd (m w)) = calls w) -> within (asks_only P) m.
Proof.
  intros Hm w. exists []. rewrite app_nil_r. split; [apply Hm | constructor].
Qed.

Lemma getitem_world k w : snd (getitem k w) = w.
Proof.
  unfold getitem. destruct (config w); try reflexivity.
  now destruct (lookup entries k).
Qed.

Lemma sleep_quiet `{Env} w :
  file (snd (sleep w)) = file w /\ config (snd (sleep w)) = config w /\
  calls (snd (sleep w)) = calls w.
Proof.
  unfold sleep.
  destruct (match sigint with Some k => Nat.eqb k (slept w) | None => false end);
    repeat split.
Qed.

Lemma setitem_quiet k v w : calls (snd (setitem k v w)) = calls w.
Proof. unfold setitem. now destruct (config w). Qed.

Lemma client_same_disk `{Env} c : within same_disk (client c).
Proof. intros w. unfold client. destruct (client_raises c); split; reflexivity. Qed.

Lemma client_asks_only `{Env} (P : call -> Prop) c : P c -> within (asks_only P) (client c).
Proof.
  intros Hc w. exists [c]. unfold client.
  destruct (client_raises c); (split; [reflexivity | now constructor]).
Qed.

Lemma set_callback_asks_only (P : call -> Prop) name :
  P (SetCallback name) -> within (asks_only P) (set_callback name).
Proof. intros Hc w. exists [SetCallback name]. split; [reflexivity | now constructor]. Qed.

Lemma sleep_same_disk `{Env} : within same_disk sleep.
Proof. intros w. split; apply sleep_quiet. Qed.

Lemma sleep_asks_only `{Env} P : within (asks_only P) sleep.
Proof. apply quiet_asks_only. intros w. apply sleep_quiet. Qed.

Create HintDb disk.
Create HintDb asks.

#[local] Hint Resolve same_disk_refl same_disk_trans client_same_disk
  sleep_same_disk : disk.
#[local] Hint Resolve asks_only_refl asks_only_trans client_asks_only
  set_callback_asks_only sleep_asks_only : asks.
#[local] Hint Extern 1 (handle_call _) => exact I : asks.

(** Walks through a sequence of statements, leaf by leaf. *)
Ltac walk db :=
  repeat first
    [ apply within_bind; [eauto with db | | intros ?]
    | apply within_try; [eauto with db | | ]
    | apply within_while; [eauto with db | eauto with db | ]
    | match goal with
      | |- within _ (if ?b then _ else _) => destruct b
      | |- within _ (match ?x with _ => _ end) => destruct x
      end
    | solve [eauto with db]
    | solve [apply quiet_same_disk; intros ?;
             rewrite ?getitem_world; split; reflexivity]
    | solve [apply quiet_asks_only; intros ?;
             rewrite ?getitem_world, ?setitem_quiet; reflexivity] ].

Lemma MqttClient_init_same_disk `{Env} : within same_disk MqttClient_init.
Proof. unfold MqttClient_init. walk disk. Qed.

Lemma connect_same_disk `{Env} : within same_disk connect.
Proof. unfold connect. walk disk. Qed.

Lemma MqttClient_init_asks `{Env} : within (asks_only handle_call) MqttClient_init.
Proof. unfold MqttClient_init. walk asks. Qed.

Lemma open_r_quiet w : calls (snd (open_r w)) = calls w.
Proof. unfold open_r. now destruct (file w). Qed.

Lemma load_or_init_asks `{Env} P : within (asks_only P) load_or_init.
Proof.
  unfold load_or_init, json_load. walk asks.
  apply quiet_asks_only. intros w. apply open_r_quiet.
Qed.

Lemma set_mqtt_server_asks `{Env} P server port :
  within (asks_only P) (set_mqtt_server server port).
Proof. unfold set_mqtt_server, save. walk asks. Qed.

Lemma set_credentials_asks `{Env} P username password :
  within (asks_only P) (set_credentials username password).
Proof. unfold set_credentials, save. walk asks. Qed.

(** X1.  [set_credentials] returns without a call on the client, and a
    run that loads the file it wrote finds the new user name and password
    and every other entry as it was. *)
Theorem set_credentials_then_reload `{Env} (w w0 : world) d username password :
  json_round_trip -> config w = PDict d -> wf (PDict d) = true ->
  file w0 = file (snd (set_credentials username password w)) ->
  fst (set_credentials username password w) = Return tt /\
  calls (snd (set_credentials username password w)) = calls w /\
  exists d',
    fst (load_or_init w0) = Return tt /\
    config (snd (load_or_init w0)) = PDict d' /\
    lookup d' "username" = Some (PStr username) /\
    lookup d' "password" = Some (PStr password) /\
    forall k, k <> "username" -> k <> "password" -> lookup d' k = lookup d k.
Proof.
  intros HR Hc Hwf Hf. destruct w as [f c out cl n]. simpl in Hc. subst c.
  rewrite set_credentials_dict in *. simpl in Hf. simpl.
  split; [reflexivity|]. split; [reflexivity|].
  exists (store (store d "username" (PStr username)) "password" (PStr password)).
  rewrite (load_or_init_present w0 _ Hf), HR by (repeat apply wf_store; auto).
  simpl. repeat split.
  - rewrite lookup_store_other by discriminate. apply lookup_store_same.
  - apply lookup_store_same.
  - intros k Hs Hp. rewrite !lookup_store_other; congruence.
Qed.

Lemma set_credentials_then_reload_witness :
  let w := at_rest None DEFAULT_CONFIG_SCHEMA in
  let w0 := boot (file (snd (@set_credentials calm "alice" "secret" w))) in
  exists d',
    config (snd (@load_or_init calm w0)) = PDict d' /\
    lookup d' "username" = Some (PStr "alice") /\
    lookup d' "password" = Some (PStr "secret") /\
    lookup d' "server" = Some (PStr "localhost").
Proof.
  intros w w0.
  destruct (@set_credentials_then_reload calm w w0 _ "alice" "secret"
              ref_loads_dumps eq_refl eq_refl eq_refl)
    as (_ & _ & d' & _ & C & U & P & K).
  exists d'. repeat split; try assumption.
  rewrite K by discriminate. reflexivity.
Defined.

(** X2.  On a configuration that is not a dict, as a file holding a JSON
    list or number leaves it, either setter stops at its first assignment
    with [TypeError]: the file is not opened and keeps its text. *)
Theorem setters_need_a_dict `{Env} (w : world) :
  is_dict (config w) = false ->
  (forall server port,
     fst (set_mqtt_server server port w) = Raise TypeError /\
     same_disk w (snd (set_mqtt_server server port w))) /\
  (forall username password,
     fst (set_credentials username password w) = Raise TypeError /\
     same_disk w (snd (set_credentials username password w))).
Proof.
  intros Hd. destruct w as [f c out cl n]. simpl in Hd.
  unfold set_mqtt_server, set_credentials, bind, pr_inf, setitem, same_disk.
  destruct c; try discriminate; simpl; repeat split.
Qed.

Lemma setters_need_a_dict_witness :
  fst (@set_mqtt_server calm "broker.example.com" 8883 (at_rest (Some "[]") (PList []))) =
    Raise TypeError /\
  same_disk (at_rest (Some "[]") (PList []))
    (snd (@set_mqtt_server calm "broker.example.com" 8883 (at_rest (Some "[]") (PList [])))).
Proof.
  destruct (@setters_need_a_dict calm (at_rest (Some "[]") (PList [])) eq_refl) as [S _].
  exact (S "broker.example.com" 8883%Z).
Defined.

(** X3.  Building the handle, [publish], [subscribe] and [view_messages]
    never change the file or the dictionary, however they end. *)
Theorem connection_commands_keep_the_configuration `{Env} (w : world)
  topic payload qos retain fuel :
  same_disk w (snd (MqttClient_init w)) /\
  same_disk w (snd (publish topic payload qos retain w)) /\
  same_disk w (snd (subscribe topic w)) /\
  same_disk w (snd (view_messages fuel topic w)).
Proof.
  pose proof connect_same_disk as Hc.
  assert (Hp : within same_disk (publish topic payload qos retain))
    by (unfold publish; walk disk).
  assert (Hs : within same_disk (subscribe topic)) by (unfold subscribe; walk disk).
  assert (Hv : within same_disk (view_messages fuel topic))
    by (unfold view_messages; walk disk).
  repeat split; first [apply MqttClient_init_same_disk | apply Hp | apply Hs | apply Hv].
Qed.

(** X4.  [subscribe] asks the broker for the topic once and returns: after
    the connect it makes the one subscribe call, starts no loop, and ends
    as that call ends; when the connect raises it asks for nothing. *)
Theorem subscribe_sends_one_request `{Env} (w : world) d s po topic :
  config w = PDict d -> lookup d "server" = Some s -> lookup d "port" = Some po ->
  match client_raises (Connect s po) with
  | Some e =>
      fst (subscribe topic w) = Raise e /\
      calls (snd (subscribe topic w)) = calls w ++ [Connect s po]
  | None =>
      fst (subscribe topic w) =
        match client_raises (Subscribe topic) with
        | Some e => Raise e
        | None => Return tt
        end /\
      calls (snd (subscribe topic w)) = calls w ++ [Connect s po; Subscribe topic]
  end.
Proof.
  intros Hc Hs Hp. destruct w as [f c out cl n]. simpl in Hc. subst c.
  unfold subscribe, bind. rewrite (connect_dict f d out cl n s po Hs Hp).
  destruct (client_raises (Connect s po)) as [e|]; [split; reflexivity|].
  unfold pr_inf, client. cbn [file config console calls slept].
  destruct (client_raises (Subscribe topic)); simpl; rewrite <- app_assoc; split; reflexivity.
Qed.

Lemma subscribe_sends_one_request_witness :
  fst (@subscribe calm "sensors/#" (at_rest None DEFAULT_CONFIG_SCHEMA)) = Return tt /\
  calls (snd (@subscribe calm "sensors/#" (at_rest None DEFAULT_CONFIG_SCHEMA))) =
    [Connect (PStr "localhost") (PInt 1883); Subscribe "sensors/#"].
Proof.
  exact (@subscribe_sends_one_request calm (at_rest None DEFAULT_CONFIG_SCHEMA) _
           (PStr "localhost") (PInt 1883) "sensors/#" eq_refl eq_refl eq_refl).
Defined.

(** X5.  After a connect that returns, [publish] makes one publish call,
    with the topic, payload, [qos] and [retain] it was given, and ends as
    that call ends; the command line publishes with [qos] 0 and no
    [retain]. *)
Theorem publish_sends_one_message `{Env} (w : world) d s po topic payload qos retain fuel :
  config w = PDict d -> lookup d "server" = Some s -> lookup d "port" = Some po ->
  client_raises (Connect s po) = None ->
  fst (publish topic payload qos retain w) =
    match client_raises (Publish topic payload qos retain) with
    | Some e => Raise e
    | None => Return tt
    end /\
  calls (snd (publish topic payload qos retain w)) =
    calls w ++ [Connect s po; Publish topic payload qos retain] /\
  calls (snd (run fuel (PublishCmd topic payload) w)) =
    calls w ++ [Connect s po; Publish topic payload 0 false].
Proof.
  intros Hc Hs Hp He. destruct w as [f c out cl n]. simpl in Hc. subst c.
  unfold run, publish, bind. rewrite (connect_dict f d out cl n s po Hs Hp), He.
  unfold pr_inf, client. cbn [file config console calls slept].
  destruct (client_raises (Publish topic payload qos retain));
    destruct (client_raises (Publish topic payload 0 false));
    simpl; rewrite <- !app_assoc; repeat split.
Qed.

Lemma publish_sends_one_message_witness :
  calls (snd (@run calm 0 (PublishCmd "sensors/temp" "21.5") (at_rest None DEFAULT_CONFIG_SCHEMA))) =
    [Connect (PStr "localhost") (PInt 1883); Publish "sensors/temp" "21.5" 0 false].
Proof.
  apply (@publish_sends_one_message calm (at_rest None DEFAULT_CONFIG_SCHEMA) _
           (PStr "localhost") (PInt 1883) "sensors/temp" "21.5" 0%Z false 0
           eq_refl eq_refl eq_refl eq_refl).
Defined.

(** X6.  The connect of [view_messages] stands before its [try]: when it
    raises, be it [KeyboardInterrupt], the exception leaves
    [view_messages], which has neither subscribed nor started or stopped
    a loop. *)
Theorem view_messages_connect_is_unguarded `{Env} (w : world) d s po e topic fuel :
  config w = PDict d -> lookup d "server" = Some s -> lookup d "port" = Some po ->
  client_raises (Connect s po) = Some e ->
  fst (view_messages fuel topic w) = Raise e /\
  calls (snd (view_messages fuel topic w)) = calls w ++ [Connect s po].
Proof.
  intros Hc Hs Hp He. destruct w as [f c out cl n]. simpl in Hc. subst c.
  unfold view_messages, bind. rewrite (connect_dict f d out cl n s po Hs Hp), He.
  split; reflexivity.
Qed.

Lemma view_messages_connect_is_unguarded_witness :
  fst (@view_messages unreachable 5 "sensors/#" (at_rest None DEFAULT_CONFIG_SCHEMA)) =
    Raise (OSError "Connection refused") /\
  calls (snd (@view_messages unreachable 5 "sensors/#" (at_rest None DEFAULT_CONFIG_SCHEMA))) =
    [Connect (PStr "localhost") (PInt 1883)].
Proof.
  exact (@view_messages_connect_is_unguarded unreachable (at_rest None DEFAULT_CONFIG_SCHEMA) _
           (PStr "localhost") (PInt 1883) (OSError "Connection refused") "sensors/#" 5
           eq_refl eq_refl eq_refl eq_refl).
Defined.

(** X7.  The subscribe of [view_messages] stands inside its [try]: a
    [KeyboardInterrupt] raised by it is caught, [loop_stop] is called on a
    loop that was never started and [view_messages] returns; any other
    exception leaves [view_messages] without a [loop_stop]. *)
Theorem view_messages_subscribe_is_guarded `{Env} (w : world) d s po e topic fuel :
  config w = PDict d -> lookup d "server" = Some s -> lookup d "port" = Some po ->
  client_raises (Connect s po) = None ->
  client_raises (Subscribe topic) = Some e ->
  client_raises LoopStop = None ->
  match e with
  | KeyboardInterrupt =>
      fst (view_messages fuel topic w) = Return tt /\
      calls (snd (view_messages fuel topic w)) =
        calls w ++ [Connect s po; Subscribe topic; LoopStop]
  | _ =>
      fst (view_messages fuel topic w) = Raise e /\
      calls (snd (view_messages fuel topic w)) =
        calls w ++ [Connect s po; Subscribe topic]
  end.
Proof.
  intros Hc Hs Hp H1 H2 H3. destruct w as [f c out cl n]. simpl in Hc. subst c.
  unfold view_messages, try_except_KeyboardInterrupt, bind.
  rewrite (connect_dict f d out cl n s po Hs Hp), H1.
  unfold pr_inf, client.
  cbn [file config console calls slept]. rewrite H2.
  destruct e; cbn [file config console calls slept]; rewrite ?H3;
    simpl; rewrite <- ?app_assoc; split; reflexivity.
Qed.

Lemma view_messages_subscribe_is_guarded_witness :
  fst (@view_messages hasty 5 "sensors/#" (at_rest None DEFAULT_CONFIG_SCHEMA)) = Return tt /\
  calls (snd (@view_messages hasty 5 "sensors/#" (at_rest None DEFAULT_CONFIG_SCHEMA))) =
    [Connect (PStr "localhost") (PInt 1883); Subscribe "sensors/#"; LoopStop].
Proof.
  exact (@view_messages_subscribe_is_guarded hasty (at_rest None DEFAULT_CONFIG_SCHEMA) _
           (PStr "localhost") (PInt 1883) KeyboardInterrupt "sensors/#" 5
           eq_refl eq_refl eq_refl eq_refl eq_refl eq_refl).
Defined.

Lemma has_key_false d k : has_key d k = false -> lookup d k = None.
Proof. unfold has_key. now destruct (lookup d k). Qed.

Lemma has_key_true d k : has_key d k = true -> exists v, lookup d k = Some v.
Proof. unfold has_key. destruct (lookup d k); [eauto | discriminate]. Qed.

Lemma MqttClient_init_KeyError `{Env} (w : world) d k :
  config w = PDict d -> first_missing d handle_keys = Some k ->
  MqttClient_init w = (Raise (KeyError k), w).
Proof.
  intros Hc Hk. destruct w as [f c out cl n]. simpl in Hc. subst c.
  unfold first_missing, handle_keys in Hk. simpl in Hk.
  unfold MqttClient_init, bind.
  repeat match type of Hk with
         | (if negb (has_key d ?key) then _ else _) = _ =>
             let E := fresh "E" in
             destruct (has_key d key) eqn:E; simpl in Hk;
             [ apply has_key_true in E as [? E]; rewrite getitem_dict, E
             | apply has_key_false in E; rewrite getitem_dict, E;
               inversion Hk; subst; reflexivity ]
         end.
  discriminate Hk.
Qed.

(** X8.  [MqttClient.__init__] on a dict that lacks one of the five keys
    of the handle raises [KeyError] for the first one missing, in the
    order it reads them, before any call on the client: no handle is
    built from a partial configuration. *)
Theorem MqttClient_init_missing_key `{Env} (w : world) d k :
  config w = PDict d -> first_missing d handle_keys = Some k ->
  fst (MqttClient_init w) = Raise (KeyError k) /\
  snd (MqttClient_init w) = w.
Proof.
  intros Hc Hk. rewrite (MqttClient_init_KeyError w d k Hc Hk). split; reflexivity.
Qed.

Lemma MqttClient_init_missing_key_witness :
  fst (@MqttClient_init calm
         (at_rest None (PDict [("client_id", PStr "mqtt-cli"); ("server", PStr "localhost")]))) =
    Raise (KeyError "protocol") /\
  snd (@MqttClient_init calm
         (at_rest None (PDict [("client_id", PStr "mqtt-cli"); ("server", PStr "localhost")]))) =
    at_rest None (PDict [("client_id", PStr "mqtt-cli"); ("server", PStr "localhost")]).
Proof.
  exact (@MqttClient_init_missing_key calm
           (at_rest None (PDict [("client_id", PStr "mqtt-cli"); ("server", PStr "localhost")]))
           _ "protocol" eq_refl eq_refl).
Defined.

(** *** Whole runs *)

Lemma main_unfold `{Env} fuel args w :
  main fuel args w =
  match load_or_init w with
  | (Return _, w1) =>
      match MqttClient_init w1 with
      | (Return _, w2) => run fuel args w2
      | (Raise e, w2) => (Raise e, w2)
      | (Running, w2) => (Running, w2)
      end
  | (Raise e, w1) => (Raise e, w1)
  | (Running, w1) => (Running, w1)
  end.
Proof.
  unfold main, bind. destruct (load_or_init w) as [[a|e|] w1]; try reflexivity.
Qed.

(** X9.  A configuration file that does not hold a JSON object stops every
    command before it acts: with [JSONDecodeError] when the text is not
    JSON, with [TypeError] when it is another JSON value; the file keeps
    its text and no call is made on the client. *)
Theorem unusable_file_stops_every_command `{Env} text fuel args :
  (forall d, json_loads text <> Some (PDict d)) ->
  fst (main fuel args (boot (Some text))) =
    Raise (match json_loads text with None => JSONDecodeError | Some _ => TypeError end) /\
  file (snd (main fuel args (boot (Some text)))) = Some text /\
  calls (snd (main fuel args (boot (Some text)))) = [].
Proof.
  intros Hd. rewrite main_unfold, (load_or_init_present (boot (Some text)) text eq_refl).
  destruct (json_loads text) as [v|]; [|repeat split].
  destruct v; try (repeat split; fail).
  now destruct (Hd entries).
Qed.

Lemma unusable_file_stops_every_command_witness :
  fst (@main calm 0 (SetMqttServerCmd "broker.example.com" "8883") (boot (Some "[]"))) =
    Raise TypeError /\
  file (snd (@main calm 0 (SetMqttServerCmd "broker.example.com" "8883") (boot (Some "[]")))) =
    Some "[]".
Proof.
  destruct (@unusable_file_stops_every_command calm "[]" 0
              (SetMqttServerCmd "broker.example.com" "8883"))
    as (R & F & _).
  - intros d. vm_compute. discriminate.
  - split; [exact R | exact F].
Defined.

(** X10.  A configuration file that holds a JSON object without one of
    the five keys of the handle stops every command with [KeyError] for
    the first key missing, [set-mqtt-server] and [set-credentials]
    included: the file keeps its text. *)
Theorem partial_file_stops_every_command `{Env} text d k fuel args :
  json_loads text = Some (PDict d) -> first_missing d handle_keys = Some k ->
  main fuel args (boot (Some text)) =
  (Raise (KeyError k), mkWorld (Some text) (PDict d) [(INF, LoadingConfig)] [] 0).
Proof.
  intros Hl Hk.
  rewrite main_unfold, (load_or_init_present (boot (Some text)) text eq_refl), Hl.
  cbn [boot console calls slept app].
  now rewrite (MqttClient_init_KeyError
                 (mkWorld (Some text) (PDict d) [(INF, LoadingConfig)] [] 0) d k eq_refl Hk).
Qed.

Lemma partial_file_stops_every_command_witness :
  @main calm 0 (SetMqttServerCmd "broker.example.com" "8883")
    (boot (Some (ref_dumps (PDict partial)))) =
  (Raise (KeyError "protocol"),
   mkWorld (Some (ref_dumps (PDict partial))) (PDict partial) [(INF, LoadingConfig)] [] 0).
Proof.
  exact (@partial_file_stops_every_command calm (ref_dumps (PDict partial)) partial
           "protocol" 0 (SetMqttServerCmd "broker.example.com" "8883")
           (ref_loads_dumps (PDict partial) eq_refl) eq_refl).
Defined.

(** X11.  The run after the one that created the file loads the defaults
    from it: it ends with the dictionary literal in memory, reports the
    load and leaves the file as it found it. *)
Theorem second_run_loads_the_defaults `{Env} :
  json_round_trip ->
  load_or_init (boot (file (snd (load_or_init (boot None))))) =
  (Return tt,
   mkWorld (Some (json_dumps DEFAULT_CONFIG_SCHEMA)) DEFAULT_CONFIG_SCHEMA
           [(INF, LoadingConfig)] [] 0).
Proof.
  intros HR.
  change (file (snd (load_or_init (boot None))))
    with (Some (json_dumps DEFAULT_CONFIG_SCHEMA)).
  rewrite (load_or_init_present (boot (Some (json_dumps DEFAULT_CONFIG_SCHEMA)))
             (json_dumps DEFAULT_CONFIG_SCHEMA) eq_refl).
  now rewrite (HR DEFAULT_CONFIG_SCHEMA eq_refl).
Qed.

Lemma second_run_loads_the_defaults_witness :
  config (snd (@load_or_init calm (boot (file (snd (@load_or_init calm (boot None))))))) =
  DEFAULT_CONFIG_SCHEMA.
Proof.
  now rewrite (@second_run_loads_the_defaults calm ref_loads_dumps).
Defined.

(** X12.  A port that [int] refuses stops [set-mqtt-server] with
    [ValueError] after the file is loaded and the handle built: the file
    and the dictionary are as [load_or_init] left them, with the server
    they had. *)
Theorem bad_port_changes_nothing `{Env} disk fuel server port :
  py_int port = None ->
  fst (main fuel (SetMqttServerCmd server port) (boot disk)) <> Return tt /\
  same_disk (snd (load_or_init (boot disk)))
            (snd (main fuel (SetMqttServerCmd server port) (boot disk))).
Proof.
  intros Hp. rewrite main_unfold.
  destruct (load_or_init (boot disk)) as [[a|e|] w1]; cbn [snd];
    try (split; [discriminate | apply same_disk_refl]).
  pose proof (MqttClient_init_same_disk w1) as Hs.
  destruct (MqttClient_init w1) as [[a'|e|] w2]; cbn [snd] in *;
    try (split; [discriminate | exact Hs]).
  unfold run. rewrite Hp. split; [discriminate | exact Hs].
Qed.

Lemma bad_port_changes_nothing_witness :
  same_disk (snd (@load_or_init calm (boot None)))
            (snd (@main calm 0 (SetMqttServerCmd "broker.example.com" "mqtt") (boot None))).
Proof.
  apply (@bad_port_changes_nothing calm None 0 "broker.example.com" "mqtt" eq_refl).
Defined.

(** X13.  The two setter commands never reach the broker: whatever the
    file holds and however the run ends, the only calls made on the
    client are those that build the handle and set its callbacks and
    credentials. *)
Theorem setter_commands_never_reach_the_broker `{Env} disk fuel :
  (forall server port,
     Forall handle_call (calls (snd (main fuel (SetMqttServerCmd server port) (boot disk))))) /\
  (forall username password,
     Forall handle_call (calls (snd (main fuel (SetCredentialsCmd username password) (boot disk))))).
Proof.
  assert (Hall : forall args,
             within (asks_only handle_call) (run fuel args) ->
             Forall handle_call (calls (snd (main fuel args (boot disk))))).
  { intros args Hr.
    assert (Hm : within (asks_only handle_call) (main fuel args)).
    { unfold main. apply within_bind; [eauto with asks | apply load_or_init_asks | intros _].
      apply within_bind; [eauto with asks | apply MqttClient_init_asks | intros _; exact Hr]. }
    destruct (Hm (boot disk)) as (more & E & F). now rewrite E. }
  split; intros a b; apply Hall; unfold run.
  - destruct (py_int b); [apply set_mqtt_server_asks | walk asks].
  - apply set_credentials_asks.
Qed.

Lemma lookup_store d k v k' :
  lookup (store d k v) k' = if k =? k' then Some v else lookup d k'.
Proof.
  destruct (String.eqb_spec k k') as [->|Hne].
  - apply lookup_store_same.
  - now apply lookup_store_other.
Qed.

(** X14.  The two setters store under different keys, so the order of a
    [set_mqtt_server] and a [set_credentials] does not matter: both orders
    return and leave dictionaries that hold the same value under every
    key. *)
Theorem setters_commute `{Env} (w : world) d server port username password :
  config w = PDict d ->
  let one := (set_mqtt_server server port ;; set_credentials username password) w in
  let other := (set_credentials username password ;; set_mqtt_server server port) w in
  fst one = Return tt /\ fst other = Return tt /\
  exists d1 d2,
    config (snd one) = PDict d1 /\ config (snd other) = PDict d2 /\
    forall k, lookup d1 k = lookup d2 k.
Proof.
  intros Hc one other. destruct w as [f c out cl n]. simpl in Hc. subst c.
  unfold one, other, bind.
  repeat (progress (rewrite ?set_mqtt_server_dict, ?set_credentials_dict; cbv beta iota)).
  cbn [fst snd config].
  split; [reflexivity|]. split; [reflexivity|].
  do 2 eexists. split; [reflexivity|]. split; [reflexivity|].
  intros k. rewrite !lookup_store.
  destruct (String.eqb_spec "password" k) as [<-|_]; [reflexivity|].
  destruct (String.eqb_spec "username" k) as [<-|_]; reflexivity.
Qed.

Lemma setters_commute_witness :
  let w := at_rest None (PDict partial) in
  exists d1 d2,
    config (snd ((@set_mqtt_server calm "broker.example.com" 8883 ;;
                  @set_credentials calm "alice" "secret") w)) = PDict d1 /\
    config (snd ((@set_credentials calm "alice" "secret" ;;
                  @set_mqtt_server calm "broker.example.com" 8883) w)) = PDict d2 /\
    forall k, lookup d1 k = lookup d2 k.
Proof.
  intros w.
  destruct (@setters_commute calm w partial "broker.example.com" 8883 "alice" "secret" eq_refl)
    as (_ & _ & d1 & d2 & C1 & C2 & K).
  exists d1, d2. auto.
Defined.

(** X15.  The credentials [set_credentials] stores serve the next run:
    the handle that run builds from the file is given exactly that user
    name and password, when neither is empty; when one is empty the next
    run sets no credentials. *)
Theorem stored_credentials_serve_the_next_run `{Env} (w : world) d
  username password cid pr tr ud cs :
  json_round_trip -> config w = PDict d -> wf (PDict d) = true ->
  lookup d "client_id" = Some cid -> lookup d "protocol" = Some pr ->
  lookup d "transport" = Some tr -> lookup d "userdata" = Some ud ->
  lookup d "clean_session" = Some cs ->
  client_raises (Client cid pr tr ud cs) = None ->
  let disk := file (snd (set_credentials username password w)) in
  let next := snd ((load_or_init ;; MqttClient_init) (boot disk)) in
  (In (UsernamePwSet (PStr username) (PStr password)) (calls next) <->
   username <> EmptyString /\ password <> EmptyString) /\
  (forall u p, In (UsernamePwSet u p) (calls next) ->
     u = PStr username /\ p = PStr password).
Proof.
  intros HR Hc Hwf H1 H2 H3 H4 H5 Hcl disk next.
  destruct w as [f c out cl n]. simpl in Hc. subst c.
  unfold next, disk. rewrite set_credentials_dict. cbn [snd file].
  set (d' := store (store d "username" (PStr username)) "password" (PStr password)).
  unfold bind.
  rewrite (load_or_init_present (boot (Some (json_dumps (PDict d'))))
             (json_dumps (PDict d')) eq_refl).
  rewrite HR by (unfold d'; repeat apply wf_store; auto).
  cbn [boot console calls slept app].
  assert (Hu : lookup d' "username" = Some (PStr username)).
  { unfold d'. rewrite lookup_store_other by discriminate. apply lookup_store_same. }
  assert (Hp : lookup d' "password" = Some (PStr password)) by apply lookup_store_same.
  rewrite (MqttClient_init_dict (Some (json_dumps (PDict d'))) d' [(INF, LoadingConfig)] [] 0
             cid pr tr ud cs)
    by (unfold d'; rewrite ?lookup_store_other by discriminate; assumption).
  rewrite Hu, Hp. cbn [truthy].
  destruct username as [|a u']; destruct password as [|b p'];
    cbn [String.eqb negb snd calls app In]; split;
    try (split; [intros [E|[E|[E|[E|[E|[]]]]]]; discriminate E
                | intros [N1 N2]; congruence]);
    try (intros u p [E|[E|[E|[E|[E|[]]]]]]; discriminate E).
  - split; [intros _; split; discriminate | intros _; auto 10].
  - intros u p [E|[E|[E|[E|[E|[E|[]]]]]]]; try discriminate E.
    inversion E. auto.
Qed.

Lemma stored_credentials_serve_the_next_run_witness :
  let w := at_rest None DEFAULT_CONFIG_SCHEMA in
  let disk := file (snd (@set_credentials calm "alice" "secret" w)) in
  In (UsernamePwSet (PStr "alice") (PStr "secret"))
     (calls (snd ((@load_or_init calm ;; @MqttClient_init calm) (boot disk)))).
Proof.
  intros w disk.
  apply (@stored_credentials_serve_the_next_run calm w _ "alice" "secret"
           (PStr "mqtt-cli") (PInt 4) (PStr "tcp") PNone (PBool true)
           ref_loads_dumps eq_refl eq_refl eq_refl eq_refl eq_refl eq_refl eq_refl eq_refl).
  split; discriminate.
Defined.

(** X16.  The password is read only when the user name is true: on a
    built handle, a dict whose user name is [None] or empty needs no
    [password] key and sets no credentials, while a true user name
    without a [password] key ends [MqttClient.__init__] with [KeyError]
    after the handle is built. *)
Theorem password_is_read_after_username `{Env} (f : option string) d out n
  cid pr tr ud cs u :
  lookup d "client_id" = Some cid -> lookup d "protocol" = Some pr ->
  lookup d "transport" = Some tr -> lookup d "userdata" = Some ud ->
  lookup d "clean_session" = Some cs ->
  client_raises (Client cid pr tr ud cs) = None ->
  lookup d "username" = Some u -> lookup d "password" = None ->
  let w := mkWorld f (PDict d) out [] n in
  fst (MqttClient_init w) =
    (if truthy u then Raise (KeyError "password") else Return tt) /\
  calls (snd (MqttClient_init w)) =
    [ Client cid pr tr ud cs; SetCallback "on_connect"; SetCallback "on_message";
      SetCallback "on_subscribe"; SetCallback "on_log" ].
Proof.
  intros H1 H2 H3 H4 H5 Hc Hu Hp w. unfold w.
  rewrite (MqttClient_init_dict f d out [] n cid pr tr ud cs) by assumption.
  rewrite Hu, Hp. destruct (truthy u); split; reflexivity.
Qed.

Lemma password_is_read_after_username_witness :
  let d := [ ("client_id", PStr "mqtt-cli"); ("protocol", PInt 4); ("transport", PStr "tcp");
             ("userdata", PNone); ("clean_session", PBool true); ("username", PStr "alice") ] in
  fst (@MqttClient_init calm (at_rest None (PDict d))) = Raise (KeyError "password").
Proof.
  intros d.
  apply (@password_is_read_after_username calm None d [] 0
           (PStr "mqtt-cli") (PInt 4) (PStr "tcp") PNone (PBool true) (PStr "alice")
           eq_refl eq_refl eq_refl eq_refl eq_refl eq_refl eq_refl eq_refl).
Defined.

Lemma connect_KeyError `{Env} (w : world) d k :
  config w = PDict d -> first_missing d ["server"; "port"] = Some k ->
  connect w = (Raise (KeyError k), w).
Proof.
  intros Hc Hk. destruct w as [f c out cl n]. simpl in Hc. subst c.
  unfold first_missing in Hk. simpl in Hk. unfold connect, bind.
  repeat match type of Hk with
         | (if negb (has_key d ?key) then _ else _) = _ =>
             let E := fresh "E" in
             destruct (has_key d key) eqn:E; simpl in Hk;
             [ apply has_key_true in E as [? E]; rewrite getitem_dict, E
             | apply has_key_false in E; rewrite getitem_dict, E;
               inversion Hk; subst; reflexivity ]
         end.
  discriminate Hk.
Qed.

(** X17.  On a dict without [server] or [port], [publish], [subscribe]
    and [view_messages] raise [KeyError] for the first of the two that is
    missing while they format their first line: nothing is printed and no
    call is made on the client. *)
Theorem connecting_needs_server_and_port `{Env} (w : world) d k
  topic payload qos retain fuel :
  config w = PDict d -> first_missing d ["server"; "port"] = Some k ->
  publish topic payload qos retain w = (Raise (KeyError k), w) /\
  subscribe topic w = (Raise (KeyError k), w) /\
  view_messages fuel topic w = (Raise (KeyError k), w).
Proof.
  intros Hc Hk. unfold publish, subscribe, view_messages, bind.
  rewrite (connect_KeyError w d k Hc Hk). repeat split.
Qed.

Lemma connecting_needs_server_and_port_witness :
  @publish calm "sensors/temp" "21.5" 0 false
    (at_rest None (PDict [("server", PStr "localhost")])) =
  (Raise (KeyError "port"), at_rest None (PDict [("server", PStr "localhost")])).
Proof.
  apply (@connecting_needs_server_and_port calm
           (at_rest None (PDict [("server", PStr "localhost")])) _ "port"
           "sensors/temp" "21.5" 0%Z false 0 eq_refl eq_refl).
Defined.

